(** * DigiVerifier real-time audio bridge: a shallow embedding

    The development follows [src/utils/audioUtils.ts] (PCM codec, transport
    encoding, resampler), [src/services/geminiLiveService.ts] (playback
    scheduler, tool dispatch, session life cycle, capture callback, controls)
    and [src/App.tsx] (tool handlers, start and end of a session, switches,
    stepper).

    Conventions.
    - A JavaScript binary string (every code unit below 256) is a [string];
      an [ArrayBuffer] seen through a [Uint8Array] is a [list byte].
    - An [await]ed or synchronous call that may throw returns an [option] or
      a [Completion]; a [catch] is a [match] on it.
    - Platform objects (audio contexts, the live session, the microphone
      stream) are records holding the part of their state the service can
      change; what the platform decides (clock readings, whether a handshake
      succeeds) is an explicit argument. *)

From Stdlib Require Import List String Ascii ZArith QArith Qround Qpower Qabs Bool Lia Arith Zpower.
From Stdlib.Strings Require Import Byte.
From Stdlib.Floats Require Import SpecFloat.
Import ListNotations.

Set Implicit Arguments.

(* ================================================================== *)
(** * Transport encoding *)
(* ================================================================== *)

Module Transport.

Local Open Scope char_scope.
Local Open Scope list_scope.

(** ** The platform's [btoa] and [atob]

    Both are host functions; they are written out here after the Base64
    algorithm they implement (RFC 4648 alphabet, [atob] being the "forgiving"
    decoder: ASCII white space is skipped, padding is optional). *)

(** Six bits, most significant first. *)
Definition sextet : Type := (bool * bool * bool * bool * bool * bool)%type.

Definition bit (b : bool) : nat := if b then 1 else 0.

Definition sextet_index (s : sextet) : nat :=
  let '(b5, b4, b3, b2, b1, b0) := s in
  32 * bit b5 + 16 * bit b4 + 8 * bit b3 + 4 * bit b2 + 2 * bit b1 + bit b0.

Definition index_sextet (n : nat) : sextet :=
  (Nat.testbit n 5, Nat.testbit n 4, Nat.testbit n 3,
   Nat.testbit n 2, Nat.testbit n 1, Nat.testbit n 0).

Definition alphabet : list ascii :=
  list_ascii_of_string
    "ABCDEFGHIJKLMNOPQRSTUVWXYZabcdefghijklmnopqrstuvwxyz0123456789+/".

Definition char_of_sextet (s : sextet) : ascii :=
  nth (sextet_index s) alphabet "A".

Fixpoint index_of (c : ascii) (l : list ascii) : option nat :=
  match l with
  | [] => None
  | x :: r => if Ascii.eqb c x then Some 0%nat else option_map S (index_of c r)
  end.

Definition sextet_of_char (c : ascii) : option sextet :=
  option_map index_sextet (index_of c alphabet).

(** Bytes to sextets, three bytes at a time; a last group of one or two
    bytes is completed with zero bits. *)
Fixpoint split_sextets (l : list ascii) : list sextet :=
  match l with
  | Ascii a0 a1 a2 a3 a4 a5 a6 a7
      :: Ascii b0 b1 b2 b3 b4 b5 b6 b7
      :: Ascii c0 c1 c2 c3 c4 c5 c6 c7 :: r =>
      (a7, a6, a5, a4, a3, a2) :: (a1, a0, b7, b6, b5, b4)
        :: (b3, b2, b1, b0, c7, c6) :: (c5, c4, c3, c2, c1, c0)
        :: split_sextets r
  | [Ascii a0 a1 a2 a3 a4 a5 a6 a7; Ascii b0 b1 b2 b3 b4 b5 b6 b7] =>
      [(a7, a6, a5, a4, a3, a2); (a1, a0, b7, b6, b5, b4);
       (b3, b2, b1, b0, false, false)]
  | [Ascii a0 a1 a2 a3 a4 a5 a6 a7] =>
      [(a7, a6, a5, a4, a3, a2); (a1, a0, false, false, false, false)]
  | [] => []
  end.

Definition padding (n : nat) : list ascii :=
  match (n mod 3)%nat with
  | 1%nat => ["="; "="]
  | 2%nat => ["="]
  | _ => []
  end.

Definition btoa_chars (l : list ascii) : list ascii :=
  map char_of_sextet (split_sextets l) ++ padding (List.length l).

Definition btoa (binary : string) : string :=
  string_of_list_ascii (btoa_chars (list_ascii_of_string binary)).

(** TAB, LF, FF, CR and SPACE. *)
Definition is_ascii_whitespace (c : ascii) : bool :=
  match nat_of_ascii c with
  | 9%nat | 10%nat | 12%nat | 13%nat | 32%nat => true
  | _ => false
  end.

Definition is_pad (c : ascii) : bool := Ascii.eqb c "=".

(** One or two trailing [=] are removed. *)
Definition strip_padding (data : list ascii) : list ascii :=
  match rev data with
  | c1 :: r1 =>
      if is_pad c1 then
        match r1 with
        | c2 :: r2 => if is_pad c2 then rev r2 else rev r1
        | [] => rev r1
        end
      else data
  | [] => data
  end.

Fixpoint traverse (A B : Type) (f : A -> option B) (l : list A) : option (list B) :=
  match l with
  | [] => Some []
  | x :: r =>
      match f x, traverse f r with
      | Some y, Some ys => Some (y :: ys)
      | _, _ => None
      end
  end.

(** Sextets back to bytes; the bits left over in a last group of two or three
    sextets are discarded. *)
Fixpoint join_sextets (l : list sextet) : list ascii :=
  match l with
  | (a7, a6, a5, a4, a3, a2) :: (a1, a0, b7, b6, b5, b4)
      :: (b3, b2, b1, b0, c7, c6) :: (c5, c4, c3, c2, c1, c0) :: r =>
      Ascii a0 a1 a2 a3 a4 a5 a6 a7 :: Ascii b0 b1 b2 b3 b4 b5 b6 b7
        :: Ascii c0 c1 c2 c3 c4 c5 c6 c7 :: join_sextets r
  | [(a7, a6, a5, a4, a3, a2); (a1, a0, b7, b6, b5, b4); (b3, b2, b1, b0, _, _)] =>
      [Ascii a0 a1 a2 a3 a4 a5 a6 a7; Ascii b0 b1 b2 b3 b4 b5 b6 b7]
  | [(a7, a6, a5, a4, a3, a2); (a1, a0, _, _, _, _)] =>
      [Ascii a0 a1 a2 a3 a4 a5 a6 a7]
  | _ => []
  end.

(** [atob] throws [InvalidCharacterError] on input that is not Base64:
    [None]. *)
Definition atob_chars (input : list ascii) : option (list ascii) :=
  let data := filter (fun c => negb (is_ascii_whitespace c)) input in
  let data :=
    if Nat.eqb (List.length data mod 4) 0 then strip_padding data else data in
  if Nat.eqb (List.length data mod 4) 1 then None
  else option_map join_sextets (traverse sextet_of_char data).

Definition atob (base64 : string) : option string :=
  option_map string_of_list_ascii (atob_chars (list_ascii_of_string base64)).

(** ** [arrayBufferToBase64] and [base64ToArrayBuffer] *)

Definition fromCharCode (b : byte) : string := String (ascii_of_byte b) EmptyString.

(** [charCodeAt] on every position of a binary string. *)
Definition charCodes (s : string) : list byte :=
  map byte_of_ascii (list_ascii_of_string s).

(** [for (i < len) binary += String.fromCharCode(bytes[i]); return btoa(binary)] *)
Definition arrayBufferToBase64 (buffer : list byte) : string :=
  let binary :=
    fold_left (fun binary b => (binary ++ fromCharCode b)%string) buffer EmptyString in
  btoa binary.

(** [atob], then [bytes[i] = binaryString.charCodeAt(i)] for every [i]. *)
Definition base64ToArrayBuffer (base64 : string) : option (list byte) :=
  match atob base64 with
  | Some binaryString => Some (charCodes binaryString)
  | None => None
  end.

End Transport.

(* ================================================================== *)
(** * JavaScript numbers *)
(* ================================================================== *)

(** A JavaScript number is an IEEE 754 binary64 value and an element of a
    [Float32Array] a binary32 value.  Both are [spec_float]s, the formats
    being the parameters [prec] and [emax] of the operations. *)

Module JS.

Definition number : Type := spec_float.
Definition float32 : Type := spec_float.

Definition NaN : number := S754_nan.

(** Conversion of an integer; exact below [2^53]. *)
Definition of_Z (z : Z) : number := binary_normalize 53 1024 z 0 false.
Definition of_nat (n : nat) : number := of_Z (Z.of_nat n).

(** Reading a [Float32Array] element gives the number of the same value;
    storing one rounds to the nearest binary32 value. *)
Definition to_number (x : float32) : number :=
  match x with
  | S754_finite s m e => binary_round 53 1024 s m e
  | _ => x
  end.

Definition to_float32 (x : number) : float32 :=
  match x with
  | S754_finite s m e => binary_round 24 128 s m e
  | _ => x
  end.

Definition add : number -> number -> number := SFadd 53 1024.
Definition sub : number -> number -> number := SFsub 53 1024.
Definition mul : number -> number -> number := SFmul 53 1024.
Definition div : number -> number -> number := SFdiv 53 1024.
Definition ltb : number -> number -> bool := SFltb.
Definition leb : number -> number -> bool := SFleb.
(** [===] on two numbers. *)
Definition strict_eq : number -> number -> bool := SFeqb.

Definition is_nan (x : number) : bool :=
  match x with S754_nan => true | _ => false end.

Definition is_finite (x : number) : bool :=
  match x with S754_zero _ | S754_finite _ _ _ => true | _ => false end.

Definition is_negative_zero (x : number) : bool :=
  match x with S754_zero true => true | _ => false end.

(** [Math.min] and [Math.max] of two numbers: NaN if either is, and [-0]
    below [+0]. *)
Definition Math_min (a b : number) : number :=
  match SFcompare a b with
  | None => NaN
  | Some Lt => a
  | Some Gt => b
  | Some Eq => if is_negative_zero b then b else a
  end.

Definition Math_max (a b : number) : number :=
  match SFcompare a b with
  | None => NaN
  | Some Lt => b
  | Some Gt => a
  | Some Eq => if is_negative_zero a then b else a
  end.

(** The integer part of a finite number, rounded toward minus infinity,
    toward plus infinity and toward zero. *)
Definition floorZ (s : bool) (m : positive) (e : Z) : Z :=
  Z.shiftl (cond_Zopp s (Zpos m)) e.

Definition ceilZ (s : bool) (m : positive) (e : Z) : Z :=
  Z.opp (Z.shiftl (cond_Zopp (negb s) (Zpos m)) e).

Definition truncZ (s : bool) (m : positive) (e : Z) : Z :=
  cond_Zopp s (Z.shiftl (Zpos m) e).

Definition Math_floor (x : number) : number :=
  match x with
  | S754_finite s m e => binary_normalize 53 1024 (floorZ s m e) 0 s
  | _ => x
  end.

Definition Math_ceil (x : number) : number :=
  match x with
  | S754_finite s m e => binary_normalize 53 1024 (ceilZ s m e) 0 s
  | _ => x
  end.

(** The integer a number stands for, when it is one. *)
Definition integer_value (x : number) : option Z :=
  match x with
  | S754_zero _ => Some 0%Z
  | S754_finite s m e =>
      if Z.eqb (Z.shiftl (Z.shiftl (Zpos m) e) (- e)) (Zpos m)
      then Some (truncZ s m e) else None
  | _ => None
  end.

(** [ToInt16], applied when a number is stored in an [Int16Array]:
    truncation, then reduction modulo [2^16] into [-32768 .. 32767]. *)
Definition ToInt16 (x : number) : Z :=
  match x with
  | S754_finite s m e => ((truncZ s m e + 32768) mod 65536 - 32768)%Z
  | _ => 0%Z
  end.

(** [ToIndex], applied to the length given to a typed array constructor;
    [None] is the [RangeError] for a negative or too large length. *)
Definition ToIndex (x : number) : option nat :=
  match x with
  | S754_nan | S754_zero _ => Some 0%nat
  | S754_infinity _ => None
  | S754_finite s m e =>
      let z := truncZ s m e in
      if (z <? 0)%Z then None
      else if (9007199254740991 <? z)%Z then None
      else Some (Z.to_nat z)
  end.

(** The rational a finite number stands for. *)
Definition value (x : spec_float) : Q :=
  match x with
  | S754_finite s m e => inject_Z (cond_Zopp s (Zpos m)) * Qpower 2 e
  | _ => 0
  end.

End JS.

(* ================================================================== *)
(** * PCM codec *)
(* ================================================================== *)

Module Codec.
Import JS.

(** [s = Math.max(-1, Math.min(1, float32[i]));
     int16[i] = s < 0 ? s * 0x8000 : s * 0x7FFF] *)
Definition encode_sample (x : float32) : Z :=
  let s := Math_max (of_Z (-1)) (Math_min (of_Z 1) (to_number x)) in
  ToInt16 (if ltb s (of_Z 0) then mul s (of_Z 32768) else mul s (of_Z 32767)).

Definition float32ToInt16 (float32 : list float32) : list Z :=
  map encode_sample float32.

(** [s = int16[i]; float32[i] = s < 0 ? s / 0x8000 : s / 0x7FFF] *)
Definition decode_sample (k : Z) : float32 :=
  let s := of_Z k in
  to_float32 (if ltb s (of_Z 0) then div s (of_Z 32768) else div s (of_Z 32767)).

Definition int16ToFloat32 (int16 : list Z) : list float32 :=
  map decode_sample int16.

(** ** Observations on the codec *)

(** [-1 <= x <= 1], by the comparisons the encoder itself makes. *)
Definition in_unit_interval (x : float32) : bool :=
  leb (of_Z (-1)) (to_number x) && leb (to_number x) (of_Z 1).

(** The scale the encoder applies to a sample of sign [s]. *)
Definition scale (s : bool) : positive := if s then 32768%positive else 32767%positive.

(** One unit in the last place of a binary32 value. *)
Definition ulp32 (x : float32) : Q :=
  match x with
  | S754_finite _ _ e => Qpower 2 e
  | _ => Qpower 2 (-149)
  end.

(** What is checked of the decoder at one code [k]: that [decode_sample k]
    is a binary32 value of [-1 .. 1], exact for [k < 0], and for [0 < k] how
    far it is from [k / 32767] and from the binary32 values whose code is
    [k]. *)
Definition lattice_ok (k : Z) : bool :=
  match decode_sample k with
  | S754_zero false => (k =? 0)%Z
  | S754_finite s md ed =>
      (valid_binary 24 128 (S754_finite s md ed)
       && in_unit_interval (S754_finite s md ed)
       && (ed <=? 0)
       && if s then
            (k <? 0) && (Z.pos md * 32768 =? (- k) * 2 ^ (- ed))
            && (Z.shiftl (Z.pos (md * 32768)) ed =? - k)
          else
            (0 <? k) && (2 ^ 23 <=? Z.pos md)
            && (Z.pos md * 32767 <? (k + 1) * 2 ^ (- ed))
            && ((Z.max (((k + 1) * 2 ^ (- ed) - 1) / 32767) (Z.pos md) - Z.pos md) * 32767
                  <? 2 ^ (- ed))
            && (let k' := Z.shiftl (Z.pos (md * 32767)) ed in (k' =? k) || (k' =? k - 1)))%Z
  | _ => false
  end.

(** [f] on the [2^depth] codes from [base] on. *)
Fixpoint all_codes (f : Z -> bool) (depth : nat) (base : Z) : bool :=
  match depth with
  | O => f base
  | S d => all_codes f d base && all_codes f d (base + 2 ^ Z.of_nat d)%Z
  end.

End Codec.

(* ================================================================== *)
(** * Resampler *)
(* ================================================================== *)

Module Resampler.
Import JS.

(** [buffer[i]] for a number [i]: the element when [i] is an index of the
    array, [undefined] ([None]) otherwise. *)
Definition get (buffer : list float32) (i : number) : option float32 :=
  match integer_value i with
  | Some z => if (z <? 0)%Z then None else nth_error buffer (Z.to_nat z)
  | None => None
  end.

(** [undefined] in arithmetic is NaN. *)
Definition operand (v : option float32) : number :=
  match v with
  | Some x => to_number x
  | None => NaN
  end.

(** What one turn of the loop computes before it reads the buffer. *)
Record tap : Type := { index : number; nextIndex : number; fraction : number }.

(** [offset = i * ratio; index = Math.floor(offset);
     nextIndex = Math.min(index + 1, buffer.length - 1);
     fraction = offset - index] *)
Definition tap_at (length : number) (ratio : number) (i : nat) : tap :=
  let offset := mul (of_nat i) ratio in
  let index := Math_floor offset in
  {| index := index;
     nextIndex := Math_min (add index (of_Z 1)) (sub length (of_Z 1));
     fraction := sub offset index |}.

(** [result[i] = buffer[index] * (1 - fraction) + buffer[nextIndex] * fraction] *)
Definition interpolate (buffer : list float32) (t : tap) : float32 :=
  to_float32
    (add (mul (operand (get buffer (index t))) (sub (of_Z 1) (fraction t)))
         (mul (operand (get buffer (nextIndex t))) (fraction t))).

Definition ratio_of (sampleRate : number) : number := div sampleRate (of_Z 16000).

(** [newLength = Math.ceil(buffer.length / ratio)], as the length of the
    [Float32Array] allocated for the result. *)
Definition newLength (buffer : list float32) (sampleRate : number) : option nat :=
  ToIndex (Math_ceil (div (of_nat (List.length buffer)) (ratio_of sampleRate))).

(** The taps of the loop, in order. *)
Definition taps (buffer : list float32) (sampleRate : number) : option (list tap) :=
  match newLength buffer sampleRate with
  | Some n =>
      Some (map (tap_at (of_nat (List.length buffer)) (ratio_of sampleRate)) (seq 0 n))
  | None => None
  end.

(** [None] is the [RangeError] of [new Float32Array(newLength)]. *)
Definition downsampleTo16000 (buffer : list float32) (sampleRate : number)
  : option (list float32) :=
  if strict_eq sampleRate (of_Z 16000) then Some buffer
  else option_map (map (interpolate buffer)) (taps buffer sampleRate).

(** The indices at which the loop reads [buffer], in order; none on the
    fast path. *)
Definition reads (buffer : list float32) (sampleRate : number) : list number :=
  if strict_eq sampleRate (of_Z 16000) then []
  else match taps buffer sampleRate with
       | Some ts => flat_map (fun t => [index t; nextIndex t]) ts
       | None => []
       end.

Definition in_bounds (buffer : list float32) (i : number) : bool :=
  match get buffer i with Some _ => true | None => false end.

(** A block of [n] samples of silence. *)
Definition silence (n : nat) : list float32 := repeat (S754_zero false) n.

End Resampler.

(* ================================================================== *)
(** * The live service *)
(* ================================================================== *)

Module Service.
Import JS.
Local Open Scope string_scope.

(** ** Control: state and exceptions *)

Inductive completion (A : Type) : Type :=
| Normal (a : A)
| Throw (e : string).
Arguments Normal {A} a.
Arguments Throw {A} e.

(** A computation over a state [S] that returns or throws, the state
    reached being kept in both cases. *)
Definition Eff (S A : Type) : Type := S -> completion A * S.

Definition ret {S A : Type} (a : A) : Eff S A := fun s => (Normal a, s).
Definition throw {S A : Type} (e : string) : Eff S A := fun s => (Throw e, s).

Definition bind {S A B : Type} (c : Eff S A) (k : A -> Eff S B) : Eff S B :=
  fun s =>
    match c s with
    | (Normal a, s') => k a s'
    | (Throw e, s') => (Throw e, s')
    end.

Definition get {S : Type} : Eff S S := fun s => (Normal s, s).
Definition modify {S : Type} (f : S -> S) : Eff S unit := fun s => (Normal tt, f s).

(** [try { c } catch (e) { handler(e) }] *)
Definition try_catch {S A : Type} (c : Eff S A) (handler : string -> Eff S A) : Eff S A :=
  fun s =>
    match c s with
    | (Normal a, s') => (Normal a, s')
    | (Throw e, s') => handler e s'
    end.

(** An [await]ed platform promise that the environment settles. *)
Definition await {S A : Type} (settled : completion A) : Eff S A :=
  fun s => (settled, s).

Declare Scope eff_scope.
Delimit Scope eff_scope with eff.
Notation "x <- c ;; k" := (bind c (fun x => k))
  (at level 61, c at next level, right associativity) : eff_scope.
Notation "c ;; k" := (bind c (fun _ => k))
  (at level 61, right associativity) : eff_scope.
Local Open Scope eff_scope.

(** ** Platform objects *)

Inductive AudioContextState : Type := suspended | running | closed.

Record AudioBuffer : Type := {
  channelData : list float32;
  sampleRate : number
}.

(** [audioBuffer.duration] *)
Definition duration (b : AudioBuffer) : number :=
  div (of_nat (List.length (channelData b))) (sampleRate b).

(** An audio context: its state and the buffer sources started on it, each
    with the time given to [start], in call order. *)
Record AudioContext : Type := {
  state : AudioContextState;
  started : list (number * AudioBuffer)
}.

Inductive Node : Type :=
| InputAnalyser | ScriptProcessor | InputDestination | OutputDestination.

(** A node of the audio graph: the nodes its output is connected to. *)
Record AudioNode : Type := { outputs : list Node }.

Record AnalyserNode : Type := { fftSize : Z; analyser_outputs : list Node }.

Record MediaStreamTrack : Type := { enabled : bool; live : bool }.
Record MediaStream : Type := { tracks : list MediaStreamTrack }.

(** Messages sent on the remote stream. *)
Definition Json : Type := list (string * string).

Record FunctionResponse : Type := {
  fr_id : string;
  fr_name : string;
  fr_response : Json
}.

Inductive ClientMessage : Type :=
| ToolResponse (functionResponses : list FunctionResponse)
| RealtimeInput (mimeType data : string).

(** The remote stream: whether it is open and what was sent on it, in order. *)
Record LiveSession : Type := {
  is_open : bool;
  sent : list ClientMessage
}.

(** Messages received on the remote stream. *)
Record Blob : Type := { data : option string }.
Record Part : Type := { inlineData : option Blob }.
Record Content : Type := { parts : option (list Part) }.
Record LiveServerContent : Type := { modelTurn : option Content }.
Record FunctionCall : Type := { id : string; name : string; args : Json }.
Record LiveServerToolCall : Type := { functionCalls : list FunctionCall }.
Record LiveServerMessage : Type := {
  serverContent : option LiveServerContent;
  toolCall : option LiveServerToolCall
}.

(** ** The fields of [GeminiLiveService] *)

Record GeminiLiveService : Type := {
  session : option LiveSession;
  inputAudioContext : option AudioContext;
  outputAudioContext : option AudioContext;
  inputSource : option AudioNode;
  processor : option AudioNode;
  nextStartTime : number;
  inputAnalyser : option AnalyserNode;
  outputAnalyser : option AnalyserNode;
  mediaStream : option MediaStream
}.

(** The object the constructor leaves. *)
Definition new_service : GeminiLiveService :=
  {| session := None; inputAudioContext := None; outputAudioContext := None;
     inputSource := None; processor := None; nextStartTime := of_Z 0;
     inputAnalyser := None; outputAnalyser := None; mediaStream := None |}.

Definition set_session v (t : GeminiLiveService) :=
  {| session := v; inputAudioContext := inputAudioContext t;
     outputAudioContext := outputAudioContext t; inputSource := inputSource t;
     processor := processor t; nextStartTime := nextStartTime t;
     inputAnalyser := inputAnalyser t; outputAnalyser := outputAnalyser t;
     mediaStream := mediaStream t |}.

Definition set_inputAudioContext v (t : GeminiLiveService) :=
  {| session := session t; inputAudioContext := v;
     outputAudioContext := outputAudioContext t; inputSource := inputSource t;
     processor := processor t; nextStartTime := nextStartTime t;
     inputAnalyser := inputAnalyser t; outputAnalyser := outputAnalyser t;
     mediaStream := mediaStream t |}.

Definition set_outputAudioContext v (t : GeminiLiveService) :=
  {| session := session t; inputAudioContext := inputAudioContext t;
     outputAudioContext := v; inputSource := inputSource t;
     processor := processor t; nextStartTime := nextStartTime t;
     inputAnalyser := inputAnalyser t; outputAnalyser := outputAnalyser t;
     mediaStream := mediaStream t |}.

Definition set_inputSource v (t : GeminiLiveService) :=
  {| session := session t; inputAudioContext := inputAudioContext t;
     outputAudioContext := outputAudioContext t; inputSource := v;
     processor := processor t; nextStartTime := nextStartTime t;
     inputAnalyser := inputAnalyser t; outputAnalyser := outputAnalyser t;
     mediaStream := mediaStream t |}.

Definition set_processor v (t : GeminiLiveService) :=
  {| session := session t; inputAudioContext := inputAudioContext t;
     outputAudioContext := outputAudioContext t; inputSource := inputSource t;
     processor := v; nextStartTime := nextStartTime t;
     inputAnalyser := inputAnalyser t; outputAnalyser := outputAnalyser t;
     mediaStream := mediaStream t |}.

Definition set_nextStartTime v (t : GeminiLiveService) :=
  {| session := session t; inputAudioContext := inputAudioContext t;
     outputAudioContext := outputAudioContext t; inputSource := inputSource t;
     processor := processor t; nextStartTime := v;
     inputAnalyser := inputAnalyser t; outputAnalyser := outputAnalyser t;
     mediaStream := mediaStream t |}.

Definition set_inputAnalyser v (t : GeminiLiveService) :=
  {| session := session t; inputAudioContext := inputAudioContext t;
     outputAudioContext := outputAudioContext t; inputSource := inputSource t;
     processor := processor t; nextStartTime := nextStartTime t;
     inputAnalyser := v; outputAnalyser := outputAnalyser t;
     mediaStream := mediaStream t |}.

Definition set_outputAnalyser v (t : GeminiLiveService) :=
  {| session := session t; inputAudioContext := inputAudioContext t;
     outputAudioContext := outputAudioContext t; inputSource := inputSource t;
     processor := processor t; nextStartTime := nextStartTime t;
     inputAnalyser := inputAnalyser t; outputAnalyser := v;
     mediaStream := mediaStream t |}.

Definition set_mediaStream v (t : GeminiLiveService) :=
  {| session := session t; inputAudioContext := inputAudioContext t;
     outputAudioContext := outputAudioContext t; inputSource := inputSource t;
     processor := processor t; nextStartTime := nextStartTime t;
     inputAnalyser := inputAnalyser t; outputAnalyser := outputAnalyser t;
     mediaStream := v |}.

(** ** Platform methods *)

Definition with_state (st : AudioContextState) (c : AudioContext) : AudioContext :=
  {| state := st; started := started c |}.

(** [source.start(when)] on a source holding [b]. *)
Definition start_source (when : number) (b : AudioBuffer) (c : AudioContext) : AudioContext :=
  {| state := state c; started := started c ++ [(when, b)] |}.

(** [context.close()]; on a context already closed the promise it returns is
    rejected, which nobody awaits. *)
Definition close_context (c : AudioContext) : AudioContext := with_state closed c.

(** [node.disconnect()] *)
Definition disconnect_node (n : AudioNode) : AudioNode := {| outputs := [] |}.

(** [session.close()] *)
Definition close_session (s : LiveSession) : LiveSession :=
  {| is_open := false; sent := sent s |}.

Definition send (m : ClientMessage) (s : LiveSession) : LiveSession :=
  {| is_open := is_open s; sent := sent s ++ [m] |}.

(** [track.stop()] *)
Definition stop_track (t : MediaStreamTrack) : MediaStreamTrack :=
  {| enabled := enabled t; live := false |}.

Definition stop_tracks (m : MediaStream) : MediaStream :=
  {| tracks := map stop_track (tracks m) |}.

(** [node.connect(d)]: connecting twice to the same node leaves one
    connection. *)
Definition node_eqb (a b : Node) : bool :=
  match a, b with
  | InputAnalyser, InputAnalyser | ScriptProcessor, ScriptProcessor
  | InputDestination, InputDestination | OutputDestination, OutputDestination => true
  | _, _ => false
  end.

Definition add_output (d : Node) (outs : list Node) : list Node :=
  if existsb (node_eqb d) outs then outs else outs ++ [d].

Definition connect_node (d : Node) (n : AudioNode) : AudioNode :=
  {| outputs := add_output d (outputs n) |}.

Definition connect_analyser (d : Node) (n : AnalyserNode) : AnalyserNode :=
  {| fftSize := fftSize n; analyser_outputs := add_output d (analyser_outputs n) |}.

Definition is_suspended (c : AudioContext) : bool :=
  match state c with suspended => true | _ => false end.

(** ** [connect] and [setupMicrophone] *)

(** What the platform decides during one [connect]: whether each new audio
    context is created suspended, how each [resume()] settles, the output
    clock, how the handshake and [getUserMedia] settle. *)
Record ConnectEnv : Type := {
  input_created_suspended : bool;
  output_created_suspended : bool;
  resume_input : completion unit;
  resume_output : completion unit;
  clock : number;
  live_connect : completion unit;
  getUserMedia : completion MediaStream
}.

(** [new AudioContextClass()] *)
Definition new_context (created_suspended : bool) : AudioContext :=
  {| state := if created_suspended then suspended else running; started := [] |}.

Definition setupMicrophone (env : ConnectEnv) : Eff GeminiLiveService unit :=
  t <- get ;;
  match inputAudioContext t with
  | None => ret tt
  | Some _ =>
      try_catch
        (stream <- await (getUserMedia env) ;;
         modify (set_mediaStream (Some stream)) ;;
         modify (set_inputSource (Some {| outputs := [] |})) ;;
         modify (set_processor (Some {| outputs := [] |})) ;;
         modify (fun t => set_inputSource
                            (option_map (connect_node InputAnalyser) (inputSource t)) t) ;;
         modify (fun t => set_inputSource
                            (option_map (connect_node ScriptProcessor) (inputSource t)) t) ;;
         modify (fun t => set_processor
                            (option_map (connect_node InputDestination) (processor t)) t))
        (fun e => throw e)
  end.

Definition connect (env : ConnectEnv) : Eff GeminiLiveService unit :=
  modify (set_inputAudioContext (Some (new_context (input_created_suspended env)))) ;;
  modify (set_outputAudioContext (Some (new_context (output_created_suspended env)))) ;;
  (if input_created_suspended env then
     await (resume_input env) ;;
     modify (fun t => set_inputAudioContext
                        (option_map (with_state running) (inputAudioContext t)) t)
   else ret tt) ;;
  (if output_created_suspended env then
     await (resume_output env) ;;
     modify (fun t => set_outputAudioContext
                        (option_map (with_state running) (outputAudioContext t)) t)
   else ret tt) ;;
  modify (set_inputAnalyser (Some {| fftSize := 256; analyser_outputs := [] |})) ;;
  modify (set_outputAnalyser (Some {| fftSize := 256; analyser_outputs := [] |})) ;;
  modify (set_nextStartTime (clock env)) ;;
  try_catch
    (await (live_connect env) ;;
     modify (set_session (Some {| is_open := true; sent := [] |})))
    (fun e => throw e) ;;
  setupMicrophone env.

(** ** [disconnect] *)

Definition disconnect : Eff GeminiLiveService unit :=
  modify (fun t => set_session (option_map close_session (session t)) t) ;;
  modify (fun t => set_inputSource (option_map disconnect_node (inputSource t)) t) ;;
  modify (fun t => set_processor (option_map disconnect_node (processor t)) t) ;;
  modify (fun t => set_inputAudioContext
                     (option_map close_context (inputAudioContext t)) t) ;;
  modify (fun t => set_outputAudioContext
                     (option_map close_context (outputAudioContext t)) t) ;;
  t <- get ;;
  match mediaStream t with
  | Some m => modify (set_mediaStream (Some (stop_tracks m)))
  | None => ret tt
  end.

(** ** [queueAudio] *)

(** [new Int16Array(arrayBuffer)]: little-endian pairs of bytes; a
    [RangeError] when the byte length is odd. *)
Definition int16_of_bytes (lo hi : byte) : Z :=
  let u := (Z.of_N (Byte.to_N lo) + 256 * Z.of_N (Byte.to_N hi))%Z in
  if (u <? 32768)%Z then u else (u - 65536)%Z.

Fixpoint Int16Array_of (arrayBuffer : list byte) : completion (list Z) :=
  match arrayBuffer with
  | [] => Normal []
  | [_] => Throw "RangeError"
  | lo :: hi :: r =>
      match Int16Array_of r with
      | Normal l => Normal (int16_of_bytes lo hi :: l)
      | Throw e => Throw e
      end
  end.

(** [createAudioBufferFromPCM]; [createBuffer] refuses a length of zero. *)
Definition createAudioBufferFromPCM (pcmData : list Z) (rate : number)
  : completion AudioBuffer :=
  let float32 := Codec.int16ToFloat32 pcmData in
  match float32 with
  | [] => Throw "NotSupportedError"
  | _ => Normal {| channelData := float32; sampleRate := rate |}
  end.

(** The first three statements of the [try] block. *)
Definition decode_chunk (base64Data : string) : completion AudioBuffer :=
  match Transport.base64ToArrayBuffer base64Data with
  | None => Throw "InvalidCharacterError"
  | Some arrayBuffer =>
      match Int16Array_of arrayBuffer with
      | Throw e => Throw e
      | Normal int16Data => createAudioBufferFromPCM int16Data (of_Z 24000)
      end
  end.

(** What the platform decides during one [queueAudio]: how [resume()]
    settles, and the output clock when it is read. *)
Record PlaybackEnv : Type := {
  resume : completion unit;
  currentTime : number
}.

Definition queueAudio (env : PlaybackEnv) (base64Data : string)
  : Eff GeminiLiveService unit :=
  t <- get ;;
  match outputAudioContext t, outputAnalyser t with
  | Some ctx, Some _ =>
      (if is_suspended ctx then
         try_catch
           (await (resume env) ;;
            modify (fun t => set_outputAudioContext
                               (option_map (with_state running) (outputAudioContext t)) t))
           (fun _ => ret tt)
       else ret tt) ;;
      try_catch
        (audioBuffer <- await (decode_chunk base64Data) ;;
         modify (fun t => set_outputAnalyser
                            (option_map (connect_analyser OutputDestination)
                                        (outputAnalyser t)) t) ;;
         t <- get ;;
         (if ltb (nextStartTime t) (currentTime env)
          then modify (set_nextStartTime (currentTime env))
          else ret tt) ;;
         modify (fun t => set_outputAudioContext
                            (option_map (start_source (nextStartTime t) audioBuffer)
                                        (outputAudioContext t)) t) ;;
         modify (fun t => set_nextStartTime
                            (add (nextStartTime t) (duration audioBuffer)) t))
        (fun _ => ret tt)
  | _, _ => ret tt
  end.

(** ** [handleMessage] *)

(** The callbacks of the surrounding application, over its state [W]. *)
Record ToolCallbacks (W : Type) : Type := {
  onSaveAadhar : Json -> Eff W unit;
  onSavePan : Json -> Eff W unit;
  onVerifyDetails : Json -> Eff W string;
  onCreateDigilocker : Json -> Eff W unit
}.

Definition on_service {W A : Type} (c : Eff GeminiLiveService A)
  : Eff (GeminiLiveService * W) A :=
  fun s => let '(r, t) := c (fst s) in (r, (t, snd s)).

Definition on_app {W A : Type} (c : Eff W A) : Eff (GeminiLiveService * W) A :=
  fun s => let '(r, w) := c (snd s) in (r, (fst s, w)).

(** [message.serverContent?.modelTurn?.parts?.[0]?.inlineData?.data] *)
Definition audioData (message : LiveServerMessage) : option string :=
  match serverContent message with
  | Some content =>
      match modelTurn content with
      | Some turn =>
          match parts turn with
          | Some (part :: _) =>
              match inlineData part with
              | Some blob => data blob
              | None => None
              end
          | _ => None
          end
      | None => None
      end
  | None => None
  end.

(** The body of the [try] statement: the handler is chosen by name, and
    [responseResult] keeps its initial value when no name matches. *)
Definition dispatch {W : Type} (callbacks : ToolCallbacks W) (call : FunctionCall)
  : Eff W Json :=
  if String.eqb (name call) "saveAadhar" then
    onSaveAadhar callbacks (args call) ;;
    ret [("status", "Aadhar Saved. Proceed to PAN.")]
  else if String.eqb (name call) "savePan" then
    onSavePan callbacks (args call) ;;
    ret [("status", "PAN Saved. Proceed to Verify.")]
  else if String.eqb (name call) "verifyDetails" then
    result <- onVerifyDetails callbacks (args call) ;;
    ret [("status", result)]
  else if String.eqb (name call) "createDigilocker" then
    onCreateDigilocker callbacks (args call) ;;
    ret [("status", "Account Created.")]
  else ret [("result", "ok")].

(** The value of [responseResult] after the [try] statement. *)
Definition responseResult {W : Type} (callbacks : ToolCallbacks W) (call : FunctionCall)
  : Eff W Json :=
  try_catch (dispatch callbacks call)
            (fun _ => ret [("error", "Failed to execute tool")]).

(** [this.session?.sendToolResponse({ functionResponses: [...] })] *)
Definition sendToolResponse (r : FunctionResponse) : Eff GeminiLiveService unit :=
  modify (fun t => set_session (option_map (send (ToolResponse [r])) (session t)) t).

(** The body of the loop over [toolCall.functionCalls]. *)
Definition handle_call {W : Type} (callbacks : ToolCallbacks W) (call : FunctionCall)
  : Eff (GeminiLiveService * W) unit :=
  r <- on_app (responseResult callbacks call) ;;
  on_service
    (sendToolResponse {| fr_id := id call; fr_name := name call; fr_response := r |}).

Fixpoint for_each {S A : Type} (body : A -> Eff S unit) (l : list A) : Eff S unit :=
  match l with
  | [] => ret tt
  | x :: r => body x ;; for_each body r
  end.

Definition handleMessage {W : Type} (callbacks : ToolCallbacks W) (env : PlaybackEnv)
  (message : LiveServerMessage) : Eff (GeminiLiveService * W) unit :=
  (match audioData message with
   | Some d => if String.eqb d "" then ret tt else on_service (queueAudio env d)
   | None => ret tt
   end) ;;
  match toolCall message with
  | Some tc => for_each (handle_call callbacks) (functionCalls tc)
  | None => ret tt
  end.

(** ** Observations on the service *)

(** The start time [queueAudio] gives to a chunk: the cursor, or the clock
    when the cursor is behind it. *)
Definition scheduled_at (cursor now : number) : number :=
  if ltb cursor now then now else cursor.

(** What a context is left with once [resume()] was tried on it. *)
Definition after_resume (env : PlaybackEnv) (ctx : AudioContext) : AudioContext :=
  if is_suspended ctx then
    match resume env with
    | Normal _ => with_state running ctx
    | Throw _ => ctx
    end
  else ctx.

(** Two service states that differ at most in the state of the output
    context (suspended or resumed). *)
Definition same_playback (t1 t2 : GeminiLiveService) : Prop :=
  session t1 = session t2 /\
  inputAudioContext t1 = inputAudioContext t2 /\
  option_map started (outputAudioContext t1) = option_map started (outputAudioContext t2) /\
  inputSource t1 = inputSource t2 /\
  processor t1 = processor t2 /\
  nextStartTime t1 = nextStartTime t2 /\
  inputAnalyser t1 = inputAnalyser t2 /\
  outputAnalyser t1 = outputAnalyser t2 /\
  mediaStream t1 = mediaStream t2.

(** The chunks of a list queued one after the other, each with what the
    platform decides for it. *)
Definition queue_all (chunks : list (PlaybackEnv * string)) : Eff GeminiLiveService unit :=
  for_each (fun c => queueAudio (fst c) (snd c)) chunks.

Definition error_payload : Json := [("error", "Failed to execute tool")].
Definition generic_ok : Json := [("result", "ok")].

Definition recognised (n : string) : bool :=
  existsb (String.eqb n) ["saveAadhar"; "savePan"; "verifyDetails"; "createDigilocker"].

(** The state of the application once the handlers of [calls] ran, in order. *)
Definition app_after {W : Type} (callbacks : ToolCallbacks W) (calls : list FunctionCall)
  (w : W) : W :=
  fold_left (fun w call => snd (responseResult callbacks call w)) calls w.

(** The response entries of [calls], in order. *)
Fixpoint responses {W : Type} (callbacks : ToolCallbacks W) (calls : list FunctionCall)
  (w : W) : list FunctionResponse :=
  match calls with
  | [] => []
  | call :: r =>
      {| fr_id := id call; fr_name := name call;
         fr_response :=
           match fst (dispatch callbacks call w) with
           | Normal j => j
           | Throw _ => error_payload
           end |}
        :: responses callbacks r (snd (responseResult callbacks call w))
  end.



Definition context_released (c : option AudioContext) : bool :=
  match c with
  | Some c => match state c with closed => true | _ => false end
  | None => true
  end.

Definition session_released (s : option LiveSession) : bool :=
  match s with
  | Some s => negb (is_open s)
  | None => true
  end.

Definition node_released (n : option AudioNode) : bool :=
  match n with
  | Some n => match outputs n with [] => true | _ => false end
  | None => true
  end.

Definition stream_released (m : option MediaStream) : bool :=
  match m with
  | Some m => forallb (fun tr => negb (live tr)) (tracks m)
  | None => true
  end.

(** Nothing the service refers to is still open, connected or live. *)
Definition released (t : GeminiLiveService) : bool :=
  session_released (session t) && node_released (inputSource t)
  && node_released (processor t) && context_released (inputAudioContext t)
  && context_released (outputAudioContext t) && stream_released (mediaStream t).

(** ** Sample runs *)

Definition a_microphone : MediaStream := {| tracks := [{| enabled := true; live := true |}] |}.

(** The handshake is rejected. *)
Definition handshake_rejected : ConnectEnv :=
  {| input_created_suspended := false; output_created_suspended := false;
     resume_input := Normal tt; resume_output := Normal tt; clock := of_Z 0;
     live_connect := Throw "handshake rejected";
     getUserMedia := Normal a_microphone |}.

(** The microphone is refused. *)
Definition microphone_refused : ConnectEnv :=
  {| input_created_suspended := true; output_created_suspended := true;
     resume_input := Normal tt; resume_output := Normal tt; clock := of_Z 0;
     live_connect := Normal tt;
     getUserMedia := Throw "NotAllowedError" |}.

(** Everything succeeds. *)
Definition all_granted : ConnectEnv :=
  {| input_created_suspended := true; output_created_suspended := false;
     resume_input := Normal tt; resume_output := Normal tt; clock := of_Z 3;
     live_connect := Normal tt;
     getUserMedia := Normal a_microphone |}.

(** The service once [connect] succeeded. *)
Definition connected_service : GeminiLiveService := snd (connect all_granted new_service).

(** The clock reads 5 and [resume()] succeeds. *)
Definition at_five : PlaybackEnv := {| resume := Normal tt; currentTime := of_Z 5 |}.

(** Handlers over a counter of the calls made, of which [onSavePan] throws. *)
Definition counting_callbacks : ToolCallbacks nat :=
  {| onSaveAadhar := fun _ n => (Normal tt, S n);
     onSavePan := fun _ n => (Throw "handler failed", S n);
     onVerifyDetails := fun _ n => (Normal "MATCH", S n);
     onCreateDigilocker := fun _ n => (Normal tt, S n) |}.

Definition four_calls : LiveServerToolCall :=
  {| functionCalls :=
       [ {| id := "1"; name := "saveAadhar"; args := [] |};
         {| id := "2"; name := "savePan"; args := [] |};
         {| id := "3"; name := "verifyDetails"; args := [("action", "compare")] |};
         {| id := "4"; name := "openSesame"; args := [] |} ] |}.

Definition four_calls_message : LiveServerMessage :=
  {| serverContent := None; toolCall := Some four_calls |}.

End Service.

(* ================================================================== *)
(** * The capture callback *)
(* ================================================================== *)

Module Capture.
Import JS Service.
Local Open Scope string_scope.
Local Open Scope eff_scope.

(** ** [pcmData.buffer] *)

(** The byte of value [z mod 256]. *)
Definition byte_of_Z (z : Z) : byte :=
  match Byte.of_N (Z.to_N (z mod 256)) with
  | Some b => b
  | None => x00
  end.

(** The two bytes of an [Int16Array] element, low byte first, in two's
    complement. *)
Definition bytes_of_int16 (k : Z) : list byte :=
  [byte_of_Z k; byte_of_Z (k / 256)].

(** The [ArrayBuffer] under an [Int16Array]. *)
Definition Int16Array_buffer (pcmData : list Z) : list byte :=
  flat_map bytes_of_int16 pcmData.

(** ** [processor.onaudioprocess] *)

(** The callback of the script processor, on one block [inputData] of the
    microphone, [sampleRate] being that of the input context.
    [this.inputAudioContext!.sampleRate] is a [TypeError] without a context,
    and [None] from the resampler the [RangeError] of its allocation. *)
Definition onaudioprocess (sampleRate : number) (inputData : list float32)
  : Eff GeminiLiveService unit :=
  t <- get ;;
  match inputAudioContext t with
  | None => throw "TypeError"
  | Some _ =>
      match Resampler.downsampleTo16000 inputData sampleRate with
      | None => throw "RangeError"
      | Some downsampledData =>
          let pcmData := Codec.float32ToInt16 downsampledData in
          let base64Data := Transport.arrayBufferToBase64 (Int16Array_buffer pcmData) in
          modify (fun t =>
                    set_session
                      (option_map (send (RealtimeInput "audio/pcm;rate=16000" base64Data))
                                  (session t)) t)
      end
  end.

(** ** Observations *)

(** The index [i] is one of an array of [length] elements. *)
Definition index_in_range (length : nat) (i : number) : bool :=
  match integer_value i with
  | Some z => ((0 <=? z) && (z <? Z.of_nat length))%Z
  | None => false
  end.

End Capture.

(* ================================================================== *)
(** * The controls of the service *)
(* ================================================================== *)

Module Controls.
Import JS Service.
Local Open Scope string_scope.
Local Open Scope eff_scope.

(** ** [setMicMuted] and [setOutputPaused] *)

(** [track.enabled = v] *)
Definition set_enabled (v : bool) (track : MediaStreamTrack) : MediaStreamTrack :=
  {| enabled := v; live := live track |}.

(** The stream was asked for with audio only, so that [getAudioTracks()] is
    all of its tracks. *)
Definition setMicMuted (muted : bool) : Eff GeminiLiveService unit :=
  t <- get ;;
  match mediaStream t with
  | Some m =>
      modify (set_mediaStream (Some {| tracks := map (set_enabled (negb muted)) (tracks m) |}))
  | None => ret tt
  end.

(** [settled] is how the platform settles the promise of [suspend()] or
    [resume()]; a promise fulfilled is one of a context that has changed
    state. *)
Definition setOutputPaused (settled : completion unit) (paused : bool)
  : Eff GeminiLiveService unit :=
  t <- get ;;
  match outputAudioContext t with
  | None => ret tt
  | Some _ =>
      if paused then
        await settled ;;
        modify (fun t => set_outputAudioContext
                           (option_map (with_state suspended) (outputAudioContext t)) t)
      else
        await settled ;;
        modify (fun t => set_outputAudioContext
                           (option_map (with_state running) (outputAudioContext t)) t)
  end.

(** ** Observations *)

(** Every track of the stream has [enabled = v]. *)
Definition all_enabled (v : bool) (m : option MediaStream) : bool :=
  match m with
  | Some m => forallb (fun track => Bool.eqb (enabled track) v) (tracks m)
  | None => true
  end.

(** The service as a [connect] that succeeds leaves it, [clock] being the
    output clock and [stream] the stream of the microphone. *)
Definition connected (clock : number) (stream : MediaStream) : GeminiLiveService :=
  {| session := Some {| is_open := true; sent := [] |};
     inputAudioContext := Some {| state := running; started := [] |};
     outputAudioContext := Some {| state := running; started := [] |};
     inputSource := Some {| outputs := [InputAnalyser; ScriptProcessor] |};
     processor := Some {| outputs := [InputDestination] |};
     nextStartTime := clock;
     inputAnalyser := Some {| fftSize := 256; analyser_outputs := [] |};
     outputAnalyser := Some {| fftSize := 256; analyser_outputs := [] |};
     mediaStream := Some stream |}.

End Controls.

(* ================================================================== *)
(** * The tool declarations *)
(* ================================================================== *)

Module Tools.
Local Open Scope string_scope.

Record FunctionDeclaration : Type := {
  fd_name : string;
  properties : list string;
  required : list string
}.

Definition saveAadharTool : FunctionDeclaration :=
  {| fd_name := "saveAadhar";
     properties := ["fullName"; "number"; "dob"];
     required := ["fullName"; "number"; "dob"] |}.

Definition savePanTool : FunctionDeclaration :=
  {| fd_name := "savePan";
     properties := ["fullName"; "number"; "dob"];
     required := ["fullName"; "number"; "dob"] |}.

Definition verifyDetailsTool : FunctionDeclaration :=
  {| fd_name := "verifyDetails";
     properties := ["action"];
     required := ["action"] |}.

Definition createDigilockerTool : FunctionDeclaration :=
  {| fd_name := "createDigilocker";
     properties := ["pin"];
     required := ["pin"] |}.

(** [tools[0].functionDeclarations] *)
Definition functionDeclarations : list FunctionDeclaration :=
  [saveAadharTool; savePanTool; verifyDetailsTool; createDigilockerTool].

End Tools.

(* ================================================================== *)
(** * The application *)
(* ================================================================== *)

(** [src/App.tsx], with the types of [src/types.ts].  A state update
    [setAppState(prev => ...)] is applied where it is written. *)

Module App.
Import Service.
Local Open Scope string_scope.
Local Open Scope eff_scope.

Inductive AppPhase : Type := IDLE | AADHAR | PAN | VERIFY | DIGILOCKER | COMPLETE.

Inductive VerificationStatus : Type := PENDING | MATCH | MISMATCH.

(** The string an enumeration member stands for. *)
Definition status_value (v : VerificationStatus) : string :=
  match v with
  | PENDING => "PENDING"
  | MATCH => "MATCH"
  | MISMATCH => "MISMATCH"
  end.

(** A property that the arguments of a call do not carry is [undefined]:
    [None]. *)
Record IdentityDoc : Type := {
  fullName : option string;
  number : option string;
  dob : option string
}.

Record DigiLockerState : Type := { isCreated : bool; pin : option string }.

Record AppState : Type := {
  phase : AppPhase;
  aadhar : option IdentityDoc;
  pan : option IdentityDoc;
  verification : VerificationStatus;
  digilocker : DigiLockerState;
  isConnected : bool;
  isAudioPlaying : bool
}.

(** The argument of [useState]. *)
Definition initial_state : AppState :=
  {| phase := IDLE; aadhar := None; pan := None; verification := PENDING;
     digilocker := {| isCreated := false; pin := None |};
     isConnected := false; isAudioPlaying := true |}.

(** [args.key] *)
Fixpoint property (key : string) (args : Json) : option string :=
  match args with
  | [] => None
  | (k, v) :: r => if String.eqb k key then Some v else property key r
  end.

(** ** The handlers of the tools *)

Definition handleSaveAadhar (args : Json) : Eff AppState unit :=
  modify (fun prev =>
    {| phase := PAN;
       aadhar := Some {| fullName := property "fullName" args;
                         number := property "number" args;
                         dob := property "dob" args |};
       pan := pan prev; verification := verification prev;
       digilocker := digilocker prev; isConnected := isConnected prev;
       isAudioPlaying := isAudioPlaying prev |}).

Definition handleSavePan (args : Json) : Eff AppState unit :=
  modify (fun prev =>
    {| phase := VERIFY;
       aadhar := aadhar prev;
       pan := Some {| fullName := property "fullName" args;
                      number := property "number" args;
                      dob := property "dob" args |};
       verification := verification prev;
       digilocker := digilocker prev; isConnected := isConnected prev;
       isAudioPlaying := isAudioPlaying prev |}).

(** The delay of one second always elapses. *)
Definition handleVerifyDetails (args : Json) : Eff AppState string :=
  let status := MATCH in
  modify (fun prev =>
    {| phase := DIGILOCKER;
       aadhar := aadhar prev; pan := pan prev;
       verification := status;
       digilocker := digilocker prev; isConnected := isConnected prev;
       isAudioPlaying := isAudioPlaying prev |}) ;;
  ret (status_value status).

Definition handleCreateDigilocker (args : Json) : Eff AppState unit :=
  modify (fun prev =>
    {| phase := COMPLETE;
       aadhar := aadhar prev; pan := pan prev;
       verification := verification prev;
       digilocker := {| isCreated := true; pin := property "pin" args |};
       isConnected := isConnected prev;
       isAudioPlaying := isAudioPlaying prev |}).

(** The callbacks [startVerification] gives to the service. *)
Definition callbacks : ToolCallbacks AppState :=
  {| onSaveAadhar := handleSaveAadhar;
     onSavePan := handleSavePan;
     onVerifyDetails := handleVerifyDetails;
     onCreateDigilocker := handleCreateDigilocker |}.

(** ** The component *)

(** The state of the component: its state hooks and the service reference. *)
Record Component : Type := {
  appState : AppState;
  micMuted : bool;
  error : option string;
  requiresKeySelection : bool;
  geminiServiceRef : option GeminiLiveService;
  inputAnalyserState : option AnalyserNode;
  outputAnalyserState : option AnalyserNode
}.

Definition initial_component : Component :=
  {| appState := initial_state; micMuted := false; error := None;
     requiresKeySelection := false; geminiServiceRef := None;
     inputAnalyserState := None; outputAnalyserState := None |}.

Definition setAppState (f : AppState -> AppState) (c : Component) : Component :=
  {| appState := f (appState c); micMuted := micMuted c; error := error c;
     requiresKeySelection := requiresKeySelection c;
     geminiServiceRef := geminiServiceRef c;
     inputAnalyserState := inputAnalyserState c;
     outputAnalyserState := outputAnalyserState c |}.

Definition setMicMuted (v : bool) (c : Component) : Component :=
  {| appState := appState c; micMuted := v; error := error c;
     requiresKeySelection := requiresKeySelection c;
     geminiServiceRef := geminiServiceRef c;
     inputAnalyserState := inputAnalyserState c;
     outputAnalyserState := outputAnalyserState c |}.

Definition setError (v : option string) (c : Component) : Component :=
  {| appState := appState c; micMuted := micMuted c; error := v;
     requiresKeySelection := requiresKeySelection c;
     geminiServiceRef := geminiServiceRef c;
     inputAnalyserState := inputAnalyserState c;
     outputAnalyserState := outputAnalyserState c |}.

Definition setRequiresKeySelection (v : bool) (c : Component) : Component :=
  {| appState := appState c; micMuted := micMuted c; error := error c;
     requiresKeySelection := v;
     geminiServiceRef := geminiServiceRef c;
     inputAnalyserState := inputAnalyserState c;
     outputAnalyserState := outputAnalyserState c |}.

Definition set_geminiServiceRef (v : option GeminiLiveService) (c : Component) : Component :=
  {| appState := appState c; micMuted := micMuted c; error := error c;
     requiresKeySelection := requiresKeySelection c;
     geminiServiceRef := v;
     inputAnalyserState := inputAnalyserState c;
     outputAnalyserState := outputAnalyserState c |}.

Definition setInputAnalyser (v : option AnalyserNode) (c : Component) : Component :=
  {| appState := appState c; micMuted := micMuted c; error := error c;
     requiresKeySelection := requiresKeySelection c;
     geminiServiceRef := geminiServiceRef c;
     inputAnalyserState := v;
     outputAnalyserState := outputAnalyserState c |}.

Definition setOutputAnalyser (v : option AnalyserNode) (c : Component) : Component :=
  {| appState := appState c; micMuted := micMuted c; error := error c;
     requiresKeySelection := requiresKeySelection c;
     geminiServiceRef := geminiServiceRef c;
     inputAnalyserState := inputAnalyserState c;
     outputAnalyserState := v |}.

Definition with_connection (connected : bool) (p : AppPhase) (prev : AppState) : AppState :=
  {| phase := p; aadhar := aadhar prev; pan := pan prev;
     verification := verification prev; digilocker := digilocker prev;
     isConnected := connected; isAudioPlaying := isAudioPlaying prev |}.

Definition with_isAudioPlaying (v : bool) (prev : AppState) : AppState :=
  {| phase := phase prev; aadhar := aadhar prev; pan := pan prev;
     verification := verification prev; digilocker := digilocker prev;
     isConnected := isConnected prev; isAudioPlaying := v |}.

(** [hay.includes(needle)] *)
Fixpoint includes (needle hay : string) : bool :=
  String.prefix needle hay
  || match hay with
     | EmptyString => false
     | String _ rest => includes needle rest
     end.

(** What the platform decides during one [startVerification]:
    [process.env.API_KEY], whether [window.aistudio] exists, and what it
    decides during [connect]. *)
Record StartEnv : Type := {
  API_KEY : option string;
  aistudio : bool;
  connecting : ConnectEnv
}.

(** [!process.env.API_KEY] *)
Definition key_missing (env : StartEnv) : bool :=
  match API_KEY env with
  | None => true
  | Some k => String.eqb k ""
  end.

(** [startVerification]; beside the component, the service object it
    constructed, if it did, as [connect] left it.  The constructor makes the
    test on the key that was made just before, and does not throw.  A thrown
    error is the string of its [message]. *)
Definition startVerification (env : StartEnv) (c : Component)
  : Component * option GeminiLiveService :=
  if requiresKeySelection c then
    (setError (Some "Please select an API Key first.") c, None)
  else if key_missing env then
    (setError (Some "Missing API_KEY in environment variables.") c, None)
  else
    let c := setError None c in
    match connect (connecting env) new_service with
    | (Normal _, service) =>
        let c := set_geminiServiceRef (Some service) c in
        let c := setInputAnalyser (inputAnalyser service) c in
        let c := setOutputAnalyser (outputAnalyser service) c in
        (setAppState (with_connection true AADHAR) c, Some service)
    | (Throw message, service) =>
        let msg := if String.eqb message "" then "Failed to connect." else message in
        if includes "Permission" msg || includes "403" msg then
          let c := if aistudio env then setRequiresKeySelection true c else c in
          (setError
             (Some "Permission Denied. Please ensure your API Key has access to Gemini Live.")
             c,
           Some service)
        else (setError (Some msg) c, Some service)
    end.

(** [toggleMic] *)
Definition toggleMic (c : Component) : Component :=
  match geminiServiceRef c with
  | Some service =>
      let newMuteState := negb (micMuted c) in
      let service := snd (Controls.setMicMuted newMuteState service) in
      setMicMuted newMuteState (set_geminiServiceRef (Some service) c)
  | None => c
  end.

(** [togglePlayback]; the state is updated once the promise of
    [setOutputPaused] is fulfilled, and not when it is rejected. *)
Definition togglePlayback (settled : completion unit) (c : Component) : Component :=
  match geminiServiceRef c with
  | Some service =>
      let newPlayState := negb (isAudioPlaying (appState c)) in
      match Controls.setOutputPaused settled (negb newPlayState) service with
      | (Normal _, service) =>
          setAppState (with_isAudioPlaying newPlayState)
                      (set_geminiServiceRef (Some service) c)
      | (Throw _, service) => set_geminiServiceRef (Some service) c
      end
  | None => c
  end.

(** [endSession]; beside the component, the service that was referred to,
    as [disconnect] left it. *)
Definition endSession (c : Component) : Component * option GeminiLiveService :=
  let left := option_map (fun service => snd (disconnect service)) (geminiServiceRef c) in
  let c := setAppState (with_connection false IDLE) c in
  let c := setInputAnalyser None c in
  let c := setOutputAnalyser None c in
  (set_geminiServiceRef None c, left).

(** ** The stepper *)

Definition phases : list AppPhase := [IDLE; AADHAR; PAN; VERIFY; DIGILOCKER; COMPLETE].

Definition phase_eqb (a b : AppPhase) : bool :=
  match a, b with
  | IDLE, IDLE | AADHAR, AADHAR | PAN, PAN | VERIFY, VERIFY
  | DIGILOCKER, DIGILOCKER | COMPLETE, COMPLETE => true
  | _, _ => false
  end.

(** [l.indexOf(p)] *)
Fixpoint indexOf (p : AppPhase) (l : list AppPhase) : Z :=
  match l with
  | [] => -1
  | x :: r =>
      if phase_eqb x p then 0
      else match indexOf p r with
           | Z.neg _ => -1
           | i => i + 1
           end
  end%Z.

Definition getStepColor (current stepPhase : AppPhase) : string :=
  let currentIndex := indexOf current phases in
  let stepIndex := indexOf stepPhase phases in
  if (stepIndex <? currentIndex)%Z then "bg-green-500 text-white border-green-500"
  else if (stepIndex =? currentIndex)%Z then
    "bg-gov-blue text-white border-gov-blue shadow-[0_0_15px_rgba(59,130,246,0.6)]"
  else "bg-slate-800 text-slate-500 border-slate-700".

(** The steps the stepper shows. *)
Definition steps : list AppPhase := [AADHAR; PAN; VERIFY; DIGILOCKER].

(** ** Observations *)

Definition done_class : string := "bg-green-500 text-white border-green-500".
Definition current_class : string :=
  "bg-gov-blue text-white border-gov-blue shadow-[0_0_15px_rgba(59,130,246,0.6)]".
Definition upcoming_class : string := "bg-slate-800 text-slate-500 border-slate-700".

(** The position of a phase in the flow. *)
Definition rank (p : AppPhase) : nat :=
  match p with
  | IDLE => 0 | AADHAR => 1 | PAN => 2 | VERIFY => 3 | DIGILOCKER => 4 | COMPLETE => 5
  end.

(** ** Sample runs *)

(** A platform on which the handshake is rejected, one on which everything
    is granted, and one on which the microphone is refused. *)
Definition rejecting : StartEnv :=
  {| API_KEY := Some "key"; aistudio := false; connecting := handshake_rejected |}.

Definition granting : StartEnv :=
  {| API_KEY := Some "key"; aistudio := false; connecting := all_granted |}.

Definition refusing : StartEnv :=
  {| API_KEY := Some "key"; aistudio := true;
     connecting :=
       {| input_created_suspended := false; output_created_suspended := false;
          resume_input := Normal tt; resume_output := Normal tt; clock := JS.of_Z 0;
          live_connect := Normal tt;
          getUserMedia := Throw "Permission denied" |} |}.

End App.

(* ================================================================== *)
(** * Facts: transport encoding *)
(* ================================================================== *)

Module TransportFacts.
Import Transport.
Local Open Scope list_scope.

Lemma sextet_of_char_of_sextet (s : sextet) : sextet_of_char (char_of_sextet s) = Some s.
Proof.
  destruct s as [[[[[b5 b4] b3] b2] b1] b0].
  destruct b5, b4, b3, b2, b1, b0; reflexivity.
Qed.

Lemma char_of_sextet_not_ws (s : sextet) : is_ascii_whitespace (char_of_sextet s) = false.
Proof.
  destruct s as [[[[[b5 b4] b3] b2] b1] b0].
  destruct b5, b4, b3, b2, b1, b0; reflexivity.
Qed.

Lemma char_of_sextet_not_pad (s : sextet) : is_pad (char_of_sextet s) = false.
Proof.
  destruct s as [[[[[b5 b4] b3] b2] b1] b0].
  destruct b5, b4, b3, b2, b1, b0; reflexivity.
Qed.

Lemma list_ind3 (A : Type) (P : list A -> Prop) :
  P [] -> (forall a, P [a]) -> (forall a b, P [a; b]) ->
  (forall a b c r, P r -> P (a :: b :: c :: r)) ->
  forall l, P l.
Proof.
  intros H0 H1 H2 H3.
  fix IH 1.
  intros [|a [|b [|c r]]]; [exact H0 | apply H1 | apply H2 | apply H3, IH].
Qed.

Lemma join_split (l : list ascii) : join_sextets (split_sextets l) = l.
Proof.
  induction l as [|a|a b|a b c r IH] using list_ind3.
  - reflexivity.
  - destruct a; reflexivity.
  - destruct a, b; reflexivity.
  - destruct a, b, c. cbn [split_sextets join_sextets]. now rewrite IH.
Qed.

Lemma traverse_map (ss : list sextet) :
  traverse sextet_of_char (map char_of_sextet ss) = Some ss.
Proof.
  induction ss as [|s ss IH]; cbn [traverse map]; [reflexivity|].
  now rewrite sextet_of_char_of_sextet, IH.
Qed.

Lemma mod4_step (n : nat) : (S (S (S (S n))) mod 4 = n mod 4)%nat.
Proof.
  replace (S (S (S (S n)))) with (n + 1 * 4)%nat by lia.
  apply Nat.Div0.mod_add.
Qed.

Lemma mod3_step (n : nat) : (S (S (S n)) mod 3 = n mod 3)%nat.
Proof.
  replace (S (S (S n))) with (n + 1 * 3)%nat by lia.
  apply Nat.Div0.mod_add.
Qed.

Lemma padding_step (n : nat) : padding (S (S (S n))) = padding n.
Proof. unfold padding. now rewrite mod3_step. Qed.

(** The characters [btoa] produces: a body drawn from the alphabet, whose
    length is 0, 2 or 3 modulo 4, followed by the padding that completes it
    to a multiple of 4. *)
Lemma split_sextets_length (l : list ascii) :
  (List.length (split_sextets l) mod 4 <> 1)%nat /\
  ((List.length (split_sextets l) + List.length (padding (List.length l))) mod 4 = 0)%nat.
Proof.
  induction l as [|a|a b|a b c r IH] using list_ind3.
  - split; cbn; lia.
  - destruct a; split; cbn; lia.
  - destruct a, b; split; cbn; lia.
  - destruct a, b, c. cbn [split_sextets List.length Nat.add].
    rewrite padding_step, !mod4_step. exact IH.
Qed.

Lemma filter_btoa_chars (l : list ascii) :
  filter (fun c => negb (is_ascii_whitespace c)) (btoa_chars l) = btoa_chars l.
Proof.
  apply forallb_filter_id. unfold btoa_chars.
  rewrite forallb_app. apply andb_true_iff; split.
  - rewrite forallb_forall. intros c Hc. apply in_map_iff in Hc.
    destruct Hc as [s [<- _]]. now rewrite char_of_sextet_not_ws.
  - unfold padding. destruct (List.length l mod 3)%nat as [|[|[|?]]]; reflexivity.
Qed.

Lemma strip_padding_btoa_chars (l : list ascii) :
  strip_padding (btoa_chars l) = map char_of_sextet (split_sextets l).
Proof.
  unfold btoa_chars, strip_padding.
  set (body := map char_of_sextet (split_sextets l)).
  assert (Hlast : forall c r, rev body = c :: r -> is_pad c = false).
  { intros c r Hr. assert (Hin : In c body).
    { apply in_rev. rewrite Hr. now left. }
    apply in_map_iff in Hin. destruct Hin as [s [<- _]]. apply char_of_sextet_not_pad. }
  unfold padding. destruct (List.length l mod 3)%nat as [|[|[|?]]].
  - rewrite app_nil_r. destruct (rev body) as [|c r] eqn:Hr; [reflexivity|].
    now rewrite (Hlast _ _ eq_refl).
  - rewrite rev_app_distr. cbn. apply rev_involutive.
  - rewrite rev_app_distr. cbn.
    destruct (rev body) as [|c r] eqn:Hr.
    + apply (f_equal (@rev _)) in Hr. rewrite rev_involutive in Hr. now rewrite Hr.
    + rewrite (Hlast _ _ eq_refl). rewrite <- Hr. apply rev_involutive.
  - rewrite app_nil_r. destruct (rev body) as [|c r] eqn:Hr; [reflexivity|].
    now rewrite (Hlast _ _ eq_refl).
Qed.

Lemma atob_btoa_chars (l : list ascii) : atob_chars (btoa_chars l) = Some l.
Proof.
  unfold atob_chars. rewrite filter_btoa_chars.
  destruct (split_sextets_length l) as [H1 H0].
  replace (List.length (btoa_chars l) mod 4)%nat with 0%nat.
  2:{ unfold btoa_chars. now rewrite length_app, length_map. }
  cbn [Nat.eqb]. rewrite strip_padding_btoa_chars, length_map.
  destruct (Nat.eqb_spec (List.length (split_sextets l) mod 4) 1) as [E|_]; [contradiction|].
  now rewrite traverse_map; cbn; rewrite join_split.
Qed.

Lemma binary_of_bytes (buffer : list byte) (acc : string) :
  fold_left (fun binary b => (binary ++ fromCharCode b)%string) buffer acc
  = (acc ++ string_of_list_ascii (map ascii_of_byte buffer))%string.
Proof.
  revert acc. induction buffer as [|b r IH]; intros acc; cbn [fold_left map string_of_list_ascii].
  - clear. induction acc; cbn; congruence.
  - rewrite IH. unfold fromCharCode. clear.
    induction acc; cbn; congruence.
Qed.

(** C4: for every byte sequence [b], the empty one included, decoding the
    transport encoding of [b] gives [b] back:
    [base64ToArrayBuffer (arrayBufferToBase64 b)] returns, with [b]. *)
Theorem transport_roundtrip (b : list byte) :
  base64ToArrayBuffer (arrayBufferToBase64 b) = Some b.
Proof.
  unfold base64ToArrayBuffer, arrayBufferToBase64, atob, btoa.
  rewrite binary_of_bytes. cbn [String.append].
  rewrite !list_ascii_of_string_of_list_ascii, atob_btoa_chars. cbn [option_map].
  unfold charCodes. rewrite list_ascii_of_string_of_list_ascii, map_map.
  f_equal. rewrite <- (map_id b) at 2. apply map_ext. apply byte_of_ascii_of_byte.
Qed.

(** ** The text produced *)

Lemma length_string_of_list_ascii (l : list ascii) :
  String.length (string_of_list_ascii l) = List.length l.
Proof. induction l as [|c r IH]; cbn; congruence. Qed.

Lemma btoa_chars_length (l : list ascii) :
  List.length (btoa_chars l) = (4 * ((List.length l + 2) / 3))%nat.
Proof.
  unfold btoa_chars. rewrite length_app, length_map.
  induction l as [|a|a b|a b c r IH] using list_ind3.
  - reflexivity.
  - destruct a; reflexivity.
  - destruct a, b; reflexivity.
  - destruct a, b, c. cbn [split_sextets List.length]. rewrite padding_step.
    replace (S (S (S (List.length r))) + 2)%nat with (List.length r + 2 + 1 * 3)%nat by lia.
    rewrite Nat.div_add by lia. lia.
Qed.

Lemma char_of_sextet_in_alphabet (s : sextet) :
  existsb (Ascii.eqb (char_of_sextet s)) alphabet = true.
Proof.
  destruct s as [[[[[b5 b4] b3] b2] b1] b0].
  destruct b5, b4, b3, b2, b1, b0; reflexivity.
Qed.

Lemma padding_is_pad (n : nat) : forallb is_pad (padding n) = true.
Proof.
  unfold padding. destruct (n mod 3)%nat as [|[|[|k]]]; reflexivity.
Qed.

Lemma arrayBufferToBase64_length (buffer : list byte) :
  String.length (arrayBufferToBase64 buffer) = (4 * ((List.length buffer + 2) / 3))%nat.
Proof.
  unfold arrayBufferToBase64, btoa. rewrite binary_of_bytes. cbn [String.append].
  rewrite !list_ascii_of_string_of_list_ascii, length_string_of_list_ascii.
  now rewrite btoa_chars_length, length_map.
Qed.

(** The text [arrayBufferToBase64] gives for [n] bytes has
    [4 * ceil(n / 3)] characters, each of them of the Base64 alphabet or
    the padding character. *)
Theorem arrayBufferToBase64_text (buffer : list byte) :
  String.length (arrayBufferToBase64 buffer) = (4 * ((List.length buffer + 2) / 3))%nat /\
  forallb (fun c => existsb (Ascii.eqb c) alphabet || is_pad c)
          (list_ascii_of_string (arrayBufferToBase64 buffer)) = true.
Proof.
  split; [apply arrayBufferToBase64_length|].
  unfold arrayBufferToBase64, btoa. rewrite binary_of_bytes. cbn [String.append].
  rewrite !list_ascii_of_string_of_list_ascii.
  unfold btoa_chars. rewrite forallb_app. apply andb_true_iff. split.
  - rewrite forallb_forall. intros c Hc. apply in_map_iff in Hc.
    destruct Hc as [s [<- _]]. now rewrite char_of_sextet_in_alphabet.
  - generalize (padding_is_pad (List.length (map ascii_of_byte buffer))).
    generalize (padding (List.length (map ascii_of_byte buffer))).
    intros p Hp. rewrite forallb_forall in *. intros c Hc.
    rewrite (Hp c Hc). apply orb_true_r.
Qed.

(** Decoding what was encoded; the bytes are those encoded. *)
Lemma decode_encode (b : list byte) :
  base64ToArrayBuffer (arrayBufferToBase64 b) = Some b.
Proof.
  unfold base64ToArrayBuffer, arrayBufferToBase64, atob, btoa.
  rewrite binary_of_bytes. cbn [String.append].
  rewrite !list_ascii_of_string_of_list_ascii, atob_btoa_chars. cbn [option_map].
  unfold charCodes. rewrite list_ascii_of_string_of_list_ascii, map_map.
  f_equal. rewrite <- (map_id b) at 2. apply map_ext. intros x.
  apply byte_of_ascii_of_byte.
Qed.

End TransportFacts.

(* ================================================================== *)
(** * Facts: binary floating point *)
(* ================================================================== *)

Module FloatFacts.
Import JS Codec.
Local Open Scope Z_scope.

(** ** Digits *)

Lemma digits2_pos_size (p : positive) : digits2_pos p = Pos.size p.
Proof. induction p; cbn; congruence. Qed.

Lemma digits2_log2 (p : positive) : Z.pos (digits2_pos p) = Z.log2 (Z.pos p) + 1.
Proof.
  rewrite digits2_pos_size. destruct p; cbn [Z.log2 Pos.size]; lia.
Qed.

Lemma digits2_bounds (p : positive) :
  2 ^ (Z.pos (digits2_pos p) - 1) <= Z.pos p < 2 ^ Z.pos (digits2_pos p).
Proof.
  rewrite digits2_log2. replace (Z.log2 (Z.pos p) + 1 - 1) with (Z.log2 (Z.pos p)) by lia.
  apply Z.log2_spec. lia.
Qed.

Lemma digits2_shift (p : positive) (n : Z) :
  0 <= n -> Z.log2 (Z.pos p * 2 ^ n) + 1 = Z.pos (digits2_pos p) + n.
Proof.
  intros Hn. rewrite Z.log2_mul_pow2, digits2_log2 by lia. lia.
Qed.

(** A positive integer as a [positive]. *)
Lemma pos_of_Z (z : Z) : 0 < z -> exists p, z = Z.pos p.
Proof. destruct z; try lia. intros _. now eexists. Qed.

Lemma iter_xO (m d : positive) : Z.pos (Pos.iter xO m d) = Z.pos m * 2 ^ Z.pos d.
Proof.
  change (Pos.iter xO m d) with (shift_pos d m).
  rewrite shift_pos_correct, Z.pow_pos_fold. lia.
Qed.

(** ** Rounding a value that needs no rounding *)

Section Format.
Variables prec emax : Z.

(** The canonical form of [m * 2^e] when [m] has at most [prec] digits and
    the value is in the normal range. *)
Lemma binary_round_exact (s : bool) (m : positive) (e : Z) :
  let d := Z.pos (digits2_pos m) in
  d <= prec -> 3 - emax - prec <= d + e - prec -> d + e <= emax ->
  exists mz, Z.pos mz = Z.pos m * 2 ^ (prec - d) /\
             binary_round prec emax s m e = S754_finite s mz (e - (prec - d)).
Proof.
  intros d Hd Hmin Hmax. unfold binary_round.
  assert (Hf : fexp prec emax (d + e) = d + e - prec).
  { unfold fexp, emin. lia. }
  fold d. rewrite Hf. unfold shl_align.
  assert (Hmz : exists mz, Z.pos mz = Z.pos m * 2 ^ (prec - d) /\
                 (match d + e - prec - e with
                  | Z.neg k => (Pos.iter xO m k, d + e - prec)
                  | _ => (m, e)
                  end) = (mz, e - (prec - d))).
  { destruct (d + e - prec - e) as [|k|k] eqn:E; try lia.
    - exists m. replace (prec - d) with 0 by lia. split; [lia|f_equal; lia].
    - exists (Pos.iter xO m k). rewrite iter_xO. replace (prec - d) with (Z.pos k) by lia.
      split; [reflexivity|f_equal; lia]. }
  destruct Hmz as (mz & Hval & ->). exists mz. split; [exact Hval|].
  assert (Hdz : Z.pos (digits2_pos mz) = prec).
  { rewrite digits2_log2, Hval. rewrite digits2_shift by lia. fold d. lia. }
  unfold binary_round_aux, shr_fexp. cbn [Zdigits2]. rewrite Hdz.
  assert (Hf2 : fexp prec emax (prec + (e - (prec - d))) - (e - (prec - d)) = 0).
  { unfold fexp, emin. lia. }
  rewrite Hf2. cbn [shr shr_record_of_loc shr_m loc_of_shr_record round_nearest_even Zdigits2].
  rewrite Hdz, Hf2. cbn [shr shr_m].
  destruct (Z.leb_spec (e - (prec - d)) (emax - prec)); [reflexivity|lia].
Qed.

End Format.


(** ** A product that needs no rounding *)

Lemma iter_shr_1 (n : positive) :
  forall r : positive,
    iter_pos shr_1 n {| shr_m := Z.pos (Pos.iter xO r n); shr_r := false; shr_s := false |}
    = {| shr_m := Z.pos r; shr_r := false; shr_s := false |}.
Proof.
  induction n as [n IH|n IH|]; intros r; cbn [iter_pos Pos.iter].
  - cbn [shr_1 orb]. now rewrite !IH.
  - now rewrite !IH.
  - reflexivity.
Qed.

Lemma SFmul_exact (s sc : bool) (M C r n : positive) (E Ec : Z) :
  (M * C)%positive = Pos.iter xO r n ->
  Z.pos (digits2_pos r) = 53 ->
  -1074 <= E + Ec + Z.pos n <= 971 ->
  SFmul 53 1024 (S754_finite s M E) (S754_finite sc C Ec)
  = S754_finite (xorb s sc) r (E + Ec + Z.pos n).
Proof.
  intros HP Hr Hrange. unfold SFmul, binary_round_aux, shr_fexp. rewrite HP.
  assert (Hd : Zdigits2 (Z.pos (Pos.iter xO r n)) = 53 + Z.pos n).
  { cbn [Zdigits2]. rewrite digits2_log2, iter_xO, digits2_shift by lia. lia. }
  rewrite Hd.
  assert (Hf : fexp 53 1024 (53 + Z.pos n + (E + Ec)) - (E + Ec) = Z.pos n).
  { unfold fexp, emin. lia. }
  rewrite Hf. cbn [shr shr_record_of_loc]. rewrite iter_shr_1.
  cbn [shr_m loc_of_shr_record round_nearest_even Zdigits2]. rewrite Hr.
  assert (Hf2 : fexp 53 1024 (53 + (E + Ec + Z.pos n)) - (E + Ec + Z.pos n) = 0).
  { unfold fexp, emin. lia. }
  rewrite Hf2. cbn [shr shr_m shr_record_of_loc].
  destruct (Z.leb_spec (E + Ec + Z.pos n) (1024 - 53)); [reflexivity|lia].
Qed.

Lemma digits2_mul_lower (m c : positive) :
  Z.pos (digits2_pos m) + Z.pos (digits2_pos c) - 1 <= Z.pos (digits2_pos (m * c)).
Proof.
  pose proof (digits2_bounds m) as [Hm _]. pose proof (digits2_bounds c) as [Hc _].
  pose proof (digits2_bounds (m * c)) as [_ Hmc].
  set (dm := Z.pos (digits2_pos m)) in *. set (dc := Z.pos (digits2_pos c)) in *.
  set (g := Z.pos (digits2_pos (m * c))) in *.
  assert (H : 2 ^ (dm - 1 + (dc - 1)) < 2 ^ g).
  { rewrite Z.pow_add_r by lia. rewrite Pos2Z.inj_mul in Hmc. nia. }
  apply Z.pow_lt_mono_r_iff in H; lia.
Qed.

(** The product of two integers given in canonical binary64 form, when the
    exact product has at most 53 digits: it is the canonical form of the
    exact product. *)
Lemma mul_scaled (s : bool) (m c : positive) (e : Z) :
  let d := Z.pos (digits2_pos m) in
  let dc := Z.pos (digits2_pos c) in
  let g := Z.pos (digits2_pos (m * c)) in
  g <= 53 -> -1021 <= d + e -> e + g <= 1024 ->
  exists r, Z.pos r = Z.pos (m * c) * 2 ^ (53 - g) /\
            mul (binary_round 53 1024 s m e) (binary_round 53 1024 false c 0)
            = S754_finite s r (e + g - 53).
Proof.
  intros d dc g Hg Hlo Hhi.
  pose proof (digits2_mul_lower m c) as Hgl. fold d dc g in Hgl.
  assert (Hd1 : 1 <= d) by (unfold d; lia). assert (Hdc1 : 1 <= dc) by (unfold dc; lia).
  destruct (binary_round_exact (prec:=53) (emax:=1024) s m e) as (M & HM & ->); fold d; try lia.
  destruct (binary_round_exact (prec:=53) (emax:=1024) false c 0) as (C & HC & ->); fold dc; try lia.
  destruct (pos_of_Z (z := Z.pos (m * c) * 2 ^ (53 - g))) as (r & Hr); [lia|].
  destruct (pos_of_Z (z := 53 + g - d - dc)) as (n & Hn); [lia|].
  exists r. split; [now rewrite <- Hr|].
  unfold mul. rewrite (@SFmul_exact s false M C r n).
  - rewrite xorb_false_r. f_equal. lia.
  - apply Pos2Z.inj. rewrite iter_xO, Pos2Z.inj_mul, HM, HC, <- Hr, <- Hn, Pos2Z.inj_mul.
    assert (Hpow : 2 ^ (53 - d) * 2 ^ (53 - dc) = 2 ^ (53 - g) * 2 ^ (53 + g - d - dc)).
    { rewrite <- !Z.pow_add_r by lia. f_equal. lia. }
    fold d dc. transitivity (Z.pos m * Z.pos c * (2 ^ (53 - d) * 2 ^ (53 - dc))); [ring|].
    rewrite Hpow. ring.
  - rewrite digits2_log2, <- Hr, digits2_shift by lia. fold g. lia.
  - lia.
Qed.


(** ** Comparisons *)

Lemma compare_cont_swap (p q : positive) :
  Pos.compare_cont Eq q p = CompOpp (Pos.compare_cont Eq p q).
Proof. symmetry. apply (Pos.compare_cont_antisym p q Eq). Qed.

Lemma SFcompare_antisym (x y : spec_float) :
  SFcompare y x = option_map CompOpp (SFcompare x y).
Proof.
  destruct x as [sx|sx| |sx mx ex], y as [sy|sy| |sy my ey]; cbn;
    try reflexivity;
    try (destruct sx; reflexivity); try (destruct sy; reflexivity);
    try (destruct sx, sy; reflexivity).
  destruct sx, sy; cbn; try reflexivity; f_equal;
    rewrite (Z.compare_antisym ex ey);
    destruct (ex ?= ey)%Z; cbn; try reflexivity;
    rewrite (compare_cont_swap mx my); now rewrite ?CompOpp_involutive.
Qed.

Lemma SFcompare_Eq_finite (s1 s2 : bool) (m1 m2 : positive) (e1 e2 : Z) :
  SFcompare (S754_finite s1 m1 e1) (S754_finite s2 m2 e2) = Some Eq ->
  S754_finite s1 m1 e1 = S754_finite s2 m2 e2.
Proof.
  cbn. destruct s1, s2; try discriminate;
    destruct (Z.compare_spec e1 e2); try discriminate; subst;
    fold (Pos.compare m1 m2); destruct (Pos.compare_spec m1 m2); try discriminate;
    subst; reflexivity.
Qed.

Lemma Math_min_finite (a : number) (s : bool) (m : positive) (e : Z) :
  is_finite a = true -> leb (S754_finite s m e) a = true ->
  Math_min a (S754_finite s m e) = S754_finite s m e.
Proof.
  unfold leb, SFleb, Math_min. intros Ha. rewrite (SFcompare_antisym (S754_finite s m e) a).
  destruct (SFcompare (S754_finite s m e) a) as [[| |]|] eqn:E; cbn; try discriminate;
    intros _; try reflexivity.
  destruct a as [sa|sa| |sa ma ea]; try discriminate.
  - destruct s; discriminate.
  - symmetry. now apply SFcompare_Eq_finite.
Qed.

Lemma Math_max_finite (a : number) (s : bool) (m : positive) (e : Z) :
  is_finite a = true -> leb a (S754_finite s m e) = true ->
  Math_max a (S754_finite s m e) = S754_finite s m e.
Proof.
  unfold leb, SFleb, Math_max. intros Ha.
  destruct (SFcompare a (S754_finite s m e)) as [[| |]|] eqn:E; cbn; try discriminate;
    intros _; try reflexivity.
  destruct a as [sa|sa| |sa ma ea]; try discriminate.
  - destruct s; discriminate.
  - cbn. now apply SFcompare_Eq_finite.
Qed.


(** ** The encoder in closed form *)

Lemma of_Z_one : of_Z 1 = S754_finite false 4503599627370496 (-52).
Proof. reflexivity. Qed.

Lemma of_Z_minus_one : of_Z (-1) = S754_finite true 4503599627370496 (-52).
Proof. reflexivity. Qed.

Lemma compare_cont_le (p q : positive) :
  match Pos.compare_cont Eq p q with Gt => false | _ => true end = true ->
  Z.pos p <= Z.pos q.
Proof.
  change (Pos.compare_cont Eq p q) with (Z.pos p ?= Z.pos q).
  destruct (Z.compare_spec (Z.pos p) (Z.pos q)) as [H|H|H]; intros Hc.
  - rewrite H. apply Z.le_refl.
  - apply Z.lt_le_incl. exact H.
  - discriminate Hc.
Qed.

Lemma SFleb_positive (M C : positive) (E Ec : Z) :
  SFleb (S754_finite false M E) (S754_finite false C Ec) = true ->
  E < Ec \/ E = Ec /\ Z.pos M <= Z.pos C.
Proof.
  unfold SFleb. cbn [SFcompare].
  destruct (Z.compare_spec E Ec) as [He|He|He]; intros H.
  - right. split; [exact He|]. apply compare_cont_le.
    destruct (Pos.compare_cont Eq M C); [reflexivity|reflexivity|discriminate H].
  - left. exact He.
  - discriminate H.
Qed.

Lemma SFleb_negative (M C : positive) (E Ec : Z) :
  SFleb (S754_finite true C Ec) (S754_finite true M E) = true ->
  E < Ec \/ E = Ec /\ Z.pos M <= Z.pos C.
Proof.
  unfold SFleb. cbn [SFcompare].
  destruct (Z.compare_spec Ec E) as [He|He|He]; intros H.
  - right. split; [symmetry; exact He|]. apply compare_cont_le.
    rewrite (compare_cont_swap C M).
    destruct (Pos.compare_cont Eq C M); [reflexivity|discriminate H|reflexivity].
  - discriminate H.
  - left. exact He.
Qed.

Lemma unit_interval_bound (s : bool) (M : positive) (E : Z) :
  leb (of_Z (-1)) (S754_finite s M E) = true ->
  leb (S754_finite s M E) (of_Z 1) = true ->
  E < -52 \/ E = -52 /\ Z.pos M <= 2 ^ 52.
Proof.
  rewrite of_Z_one, of_Z_minus_one. unfold leb.
  change (2 ^ 52) with (Z.pos 4503599627370496).
  destruct s; intros Hlo Hhi.
  - exact (SFleb_negative _ _ _ _ Hlo).
  - exact (SFleb_positive _ _ _ _ Hhi).
Qed.

Lemma valid_float32 (s : bool) (m : positive) (e : Z) :
  valid_binary 24 128 (S754_finite s m e) = true ->
  -149 <= e <= 104 /\ Z.pos (digits2_pos m) <= 24.
Proof.
  cbn [valid_binary]. unfold bounded, canonical_mantissa. intros H.
  apply andb_true_iff in H. destruct H as [Hc Hb].
  apply Z.eqb_eq in Hc. apply Z.leb_le in Hb.
  unfold fexp, emin in Hc.
  change (3 - 128 - 24) with (-149) in Hc. change (128 - 24) with 104 in Hb.
  set (d := Z.pos (digits2_pos m)) in *.
  assert (0 < d) by (unfold d; apply Pos2Z.is_pos).
  clearbody d. lia.
Qed.

Lemma encode_sample_finite (s : bool) (m : positive) (e : Z) :
  valid_binary 24 128 (S754_finite s m e) = true ->
  in_unit_interval (S754_finite s m e) = true ->
  Codec.encode_sample (S754_finite s m e)
    = cond_Zopp s (Z.shiftl (Z.pos (m * scale s)) e) /\
  -149 <= e <= 0 /\ Z.pos m <= 2 ^ (- e) /\ Z.pos m < 2 ^ 24.
Proof.
  intros Hv Hu. apply valid_float32 in Hv. destruct Hv as [He Hd].
  pose proof (digits2_bounds m) as [Hml Hmu].
  set (d := Z.pos (digits2_pos m)) in *.
  assert (Hd1 : 1 <= d) by (unfold d; lia).
  unfold in_unit_interval in Hu. apply andb_true_iff in Hu. destruct Hu as [Hlo Hhi].
  unfold Codec.encode_sample.
  cbn [to_number] in *.
  destruct (binary_round_exact (prec:=53) (emax:=1024) s m e) as (M & HM & HxM);
    fold d; try lia.
  fold d in HM, HxM.
  (* the bounds that the two comparisons give *)
  assert (Hb : e <= 0 /\ Z.pos m <= 2 ^ (- e)).
  { rewrite HxM in Hlo, Hhi.
    destruct (unit_interval_bound _ _ _ Hlo Hhi) as [HE|[HE HM52]];
      rewrite <- HxM in Hlo, Hhi.
    - split; [lia|]. apply Z.lt_le_incl. eapply Z.lt_le_trans; [exact Hmu|].
      apply Z.pow_le_mono_r; lia.
    - assert (e = 1 - d) by lia. subst e. split; [lia|].
      replace (- (1 - d)) with (d - 1) by lia.
      rewrite HM in HM52.
      replace (2 ^ 52) with (2 ^ (d - 1) * 2 ^ (53 - d)) in HM52
        by (rewrite <- Z.pow_add_r by lia; f_equal; lia).
      assert (0 < 2 ^ (53 - d)) by (apply Z.pow_pos_nonneg; lia). nia. }
  destruct Hb as [He0 Hm1].
  assert (Hm24 : Z.pos m < 2 ^ 24).
  { eapply Z.lt_le_trans; [exact Hmu|]. apply Z.pow_le_mono_r; lia. }
  (* the clamp leaves the sample as it is *)
  rewrite HxM in Hlo, Hhi |- *.
  rewrite (Math_min_finite (of_Z 1) s M _ eq_refl Hhi).
  rewrite (Math_max_finite (of_Z (-1)) s M _ eq_refl Hlo).
  rewrite <- HxM.
  assert (Hlt : ltb (binary_round 53 1024 s m e) (of_Z 0) = s).
  { rewrite HxM. destruct s; reflexivity. }
  rewrite Hlt.
  (* the product is exact *)
  assert (Hscale : (if s then mul (binary_round 53 1024 s m e) (of_Z 32768)
                    else mul (binary_round 53 1024 s m e) (of_Z 32767))
                   = mul (binary_round 53 1024 s m e)
                         (binary_round 53 1024 false (scale s) 0)).
  { destruct s; reflexivity. }
  rewrite Hscale.
  pose proof (digits2_bounds (m * scale s)) as [Hgl Hgu].
  set (g := Z.pos (digits2_pos (m * scale s))) in *.
  assert (Hc : Z.pos (scale s) <= 2 ^ 15) by (destruct s; cbn; lia).
  assert (Hg : g <= 40).
  { assert (H : 2 ^ (g - 1) < 2 ^ 39).
    { eapply Z.le_lt_trans; [exact Hgl|]. rewrite Pos2Z.inj_mul.
      change (2 ^ 39) with (2 ^ 24 * 2 ^ 15). nia. }
    apply Z.pow_lt_mono_r_iff in H; lia. }
  assert (Hg1 : 1 <= g) by (unfold g; lia).
  destruct (mul_scaled s m (scale s) e) as (r & Hr & ->); fold d g; try lia.
  fold g in Hr.
  (* truncation *)
  split; [|lia].
  cbn [ToInt16]. unfold truncZ.
  assert (HT : Z.shiftl (Z.pos r) (e + g - 53) = Z.shiftl (Z.pos (m * scale s)) e).
  { rewrite Hr, <- Z.shiftl_mul_pow2, Z.shiftl_shiftl by lia. f_equal. lia. }
  rewrite HT.
  set (T := Z.shiftl (Z.pos (m * scale s)) e).
  assert (HTr : 0 <= T <= Z.pos (scale s)).
  { unfold T. rewrite Z.shiftl_div_pow2 by lia.
    assert (0 < 2 ^ (- e)) by (apply Z.pow_pos_nonneg; lia).
    split; [apply Z.div_pos; lia|].
    apply Z.div_le_upper_bound; [lia|]. rewrite Pos2Z.inj_mul. nia. }
  destruct s; cbn [cond_Zopp scale] in *.
  - rewrite Z.mod_small by lia. lia.
  - rewrite Z.mod_small by lia. lia.
Qed.

(** [!(x < y)] gives [y <= x] unless one of the two is NaN. *)
Lemma not_ltb_leb (x y : number) :
  is_nan x = false -> is_nan y = false -> ltb x y = false -> leb y x = true.
Proof.
  unfold ltb, leb, SFltb, SFleb. intros Hx Hy. rewrite (SFcompare_antisym x y).
  destruct (SFcompare x y) as [[| |]|] eqn:E; cbn; try congruence.
  destruct x, y; cbn in *; try discriminate;
    repeat match goal with s : bool |- _ => destruct s end; discriminate.
Qed.

Lemma leb_refl (x : number) : is_nan x = false -> leb x x = true.
Proof.
  unfold leb, SFleb. destruct x as [s|s| |s m e]; cbn; try discriminate; intros _.
  - reflexivity.
  - destruct s; reflexivity.
  - destruct s; rewrite Z.compare_refl, Pos.compare_cont_refl; reflexivity.
Qed.

End FloatFacts.

(* ================================================================== *)
(** * Facts: PCM codec *)
(* ================================================================== *)

Module CodecFacts.
Import JS Codec FloatFacts.
Local Open Scope Z_scope.

Lemma all_codes_spec (f : Z -> bool) (depth : nat) :
  forall base k, all_codes f depth base = true ->
                 base <= k < base + 2 ^ Z.of_nat depth -> f k = true.
Proof.
  induction depth as [|d IH]; intros base k H Hk.
  - cbn in H, Hk. replace k with base by lia. exact H.
  - cbn [all_codes] in H. apply andb_true_iff in H. destruct H as [H1 H2].
    rewrite Nat2Z.inj_succ, Z.pow_succ_r in Hk by lia.
    destruct (Z.lt_ge_cases k (base + 2 ^ Z.of_nat d)).
    + apply (IH base); [exact H1|lia].
    + apply (IH (base + 2 ^ Z.of_nat d)); [exact H2|lia].
Qed.

Lemma lattice_table : all_codes lattice_ok 16 (-32768) = true.
Proof. vm_compute. reflexivity. Qed.


Lemma lattice_ok_all (k : Z) : -32768 <= k <= 32767 -> lattice_ok k = true.
Proof.
  intros Hk. apply (@all_codes_spec lattice_ok 16 (-32768) k lattice_table).
  change (2 ^ Z.of_nat 16) with 65536. lia.
Qed.

(** ** Values *)

Lemma pow2_pos (n : Z) : 0 <= n -> 0 < 2 ^ n.
Proof. intros. apply Z.pow_pos_nonneg; lia. Qed.

Lemma value_nonpos_exponent (s : bool) (m : positive) (e : Z) :
  e <= 0 ->
  (value (S754_finite s m e) == cond_Zopp s (Z.pos m) # Z.to_pos (2 ^ (- e)))%Q.
Proof.
  intros He. cbn [value].
  assert (Hp : (2 ^ e == 1 # Z.to_pos (2 ^ (- e)))%Q).
  { replace e with (- (- e)) at 1 by lia. rewrite Qpower_opp.
    change 2%Q with (inject_Z 2). rewrite <- Zpower_Qpower by lia.
    pose proof (pow2_pos (n := - e)) as Hpos.
    destruct (2 ^ (- e)) as [|p|p]; try lia. reflexivity. }
  rewrite Hp. unfold Qeq, Qmult, inject_Z. cbn [Qnum Qden]. lia.
Qed.


Lemma Qabs_diff_lt (n1 n2 : Z) (d1 d2 c : positive) :
  Z.abs (n1 * Z.pos d2 - n2 * Z.pos d1) * Z.pos c < Z.pos d1 * Z.pos d2 ->
  (Qabs ((n1 # d1) - (n2 # d2)) < 1 # c)%Q.
Proof.
  intros H. unfold Qminus, Qplus, Qopp, Qabs, Qlt. cbn [Qnum Qden].
  rewrite Pos2Z.inj_mul.
  replace (n1 * Z.pos d2 + - n2 * Z.pos d1) with (n1 * Z.pos d2 - n2 * Z.pos d1) by ring.
  lia.
Qed.

(** The distance between a sample [m / A] and the decoded value [md / B] of
    its code [k], for a sample that is not negative. *)
Lemma positive_step (a b m md k : Z) :
  0 <= a -> 0 <= b -> 0 < m < 2 ^ 24 -> 2 ^ 23 <= md -> 0 <= k ->
  k * 2 ^ a <= m * 32767 < (k + 1) * 2 ^ a ->
  md * 32767 < (k + 1) * 2 ^ b ->
  (Z.max (((k + 1) * 2 ^ b - 1) / 32767) md - md) * 32767 < 2 ^ b ->
  Z.abs (md * 2 ^ a - m * 2 ^ b) * 32767 < 2 ^ b * 2 ^ a.
Proof.
  intros Ha Hb Hm Hmd Hk Hdiv Hlow Hup.
  pose proof (pow2_pos Ha) as HA. pose proof (pow2_pos Hb) as HB.
  set (A := 2 ^ a) in *. set (B := 2 ^ b) in *.
  destruct (Z.abs_spec (md * A - m * B)) as [[Hsign ->]|[Hsign ->]].
  - (* the decoded value is above the sample *)
    assert (md * 32767 * A < (k + 1) * B * A) by (apply Z.mul_lt_mono_pos_r; lia).
    assert (k * A * B <= m * 32767 * B) by (apply Z.mul_le_mono_nonneg_r; lia).
    lia.
  - (* the sample is above the decoded value *)
    destruct (Z.le_gt_cases a b) as [Hab|Hab].
    + assert (HBA : B = A * 2 ^ (b - a)).
      { unfold A, B. rewrite <- Z.pow_add_r by lia. f_equal. lia. }
      pose proof (pow2_pos (n := b - a)) as HT. set (T := 2 ^ (b - a)) in *.
      assert (HJ : m * T <= ((k + 1) * B - 1) / 32767).
      { apply Z.div_le_lower_bound; [lia|].
        assert (m * 32767 * T < (k + 1) * A * T) by (apply Z.mul_lt_mono_pos_r; lia).
        rewrite HBA. lia. }
      assert (HJm : (m * T - md) * 32767 < B).
      { revert HJ Hup. generalize (((k + 1) * B - 1) / 32767) (m * T). intros g J. lia. }
      assert (HA' : (m * T - md) * 32767 * A < B * A) by (apply Z.mul_lt_mono_pos_r; lia).
      replace (- (md * A - m * B) * 32767) with ((m * T - md) * 32767 * A)
        by (rewrite HBA; ring).
      exact HA'.
    + assert (HAB : A = B * 2 ^ (a - b)).
      { unfold A, B. rewrite <- Z.pow_add_r by lia. f_equal. lia. }
      assert (HT : 2 <= 2 ^ (a - b)).
      { change 2 with (2 ^ 1) at 1. apply Z.pow_le_mono_r; lia. }
      set (T := 2 ^ (a - b)) in *.
      assert (m * B < md * A).
      { rewrite HAB. change (2 ^ 24) with (2 * 2 ^ 23) in Hm.
        assert (m * B < 2 * 2 ^ 23 * B) by (apply Z.mul_lt_mono_pos_r; lia).
        assert (2 ^ 23 * (B * T) <= md * (B * T)) by (apply Z.mul_le_mono_nonneg_r; lia).
        assert (2 * (2 ^ 23 * B) <= T * (2 ^ 23 * B)) by (apply Z.mul_le_mono_nonneg_r; lia).
        lia. }
      lia.
Qed.

Lemma negative_step (a b m md t : Z) :
  0 <= a -> 0 <= b -> 0 < m -> 0 <= t ->
  t * 2 ^ a <= m * 32768 < (t + 1) * 2 ^ a ->
  md * 32768 = t * 2 ^ b ->
  Z.abs (- md * 2 ^ a - - m * 2 ^ b) * 32767 < 2 ^ b * 2 ^ a.
Proof.
  intros Ha Hb Hm Ht Hdiv Hmd.
  pose proof (pow2_pos Ha) as HA. pose proof (pow2_pos Hb) as HB.
  set (A := 2 ^ a) in *. set (B := 2 ^ b) in *.
  assert (H1 : t * A * B <= m * 32768 * B) by (apply Z.mul_le_mono_nonneg_r; lia).
  assert (H2 : m * 32768 * B < (t + 1) * A * B) by (apply Z.mul_lt_mono_pos_r; lia).
  assert (H3 : md * 32768 * A = t * B * A) by (rewrite Hmd; reflexivity).
  destruct (Z.abs_spec (- md * A - - m * B)) as [[Hsign ->]|[Hsign ->]]; lia.
Qed.


Lemma shiftl_div (n e : Z) : e <= 0 -> Z.shiftl n e = n / 2 ^ (- e).
Proof. apply Z.shiftl_div_pow2. Qed.

Lemma lattice_ok_zero (k : Z) (s : bool) :
  lattice_ok k = true -> decode_sample k = S754_zero s -> s = false /\ k = 0.
Proof.
  unfold lattice_ok. intros H D. rewrite D in H. destruct s; [discriminate H|].
  split; [reflexivity|]. now apply Z.eqb_eq.
Qed.

Ltac split_checks H :=
  cbv zeta in H;
  set (v := valid_binary 24 128 _) in H;
  set (u := in_unit_interval _) in H;
  repeat match goal with
         | H : _ && _ = true |- _ => apply andb_true_iff in H; destruct H
         end;
  subst v u;
  repeat match goal with
         | H : (_ <=? _) = true |- _ => apply Z.leb_le in H
         | H : (_ <? _) = true |- _ => apply Z.ltb_lt in H
         | H : (_ =? _) = true |- _ => apply Z.eqb_eq in H
         end.

Lemma lattice_ok_positive (k : Z) (md : positive) (ed : Z) :
  lattice_ok k = true -> decode_sample k = S754_finite false md ed ->
  valid_binary 24 128 (S754_finite false md ed) = true /\
  in_unit_interval (S754_finite false md ed) = true /\
  ed <= 0 /\ 0 < k /\ 2 ^ 23 <= Z.pos md /\
  Z.pos md * 32767 < (k + 1) * 2 ^ (- ed) /\
  (Z.max (((k + 1) * 2 ^ (- ed) - 1) / 32767) (Z.pos md) - Z.pos md) * 32767 < 2 ^ (- ed) /\
  (Z.shiftl (Z.pos (md * 32767)) ed = k \/ Z.shiftl (Z.pos (md * 32767)) ed = k - 1).
Proof.
  unfold lattice_ok. intros H D. rewrite D in H. split_checks H.
  repeat split; try assumption.
  match goal with
  | H : _ || _ = true |- _ =>
      apply orb_true_iff in H; destruct H as [E|E]; apply Z.eqb_eq in E;
      [left|right]; exact E
  end.
Qed.

Lemma lattice_ok_negative (k : Z) (md : positive) (ed : Z) :
  lattice_ok k = true -> decode_sample k = S754_finite true md ed ->
  valid_binary 24 128 (S754_finite true md ed) = true /\
  in_unit_interval (S754_finite true md ed) = true /\
  ed <= 0 /\ k < 0 /\
  Z.pos md * 32768 = (- k) * 2 ^ (- ed) /\
  Z.shiftl (Z.pos (md * 32768)) ed = - k.
Proof.
  unfold lattice_ok. intros H D. rewrite D in H. split_checks H.
  repeat split; assumption.
Qed.


Lemma encode_zero (s : bool) : encode_sample (S754_zero s) = 0.
Proof. destruct s; reflexivity. Qed.

Lemma decode_zero : decode_sample 0 = S754_zero false.
Proof. reflexivity. Qed.

Lemma pow2_to_pos (n : Z) : 0 <= n -> Z.pos (Z.to_pos (2 ^ n)) = 2 ^ n.
Proof. intros H. apply Z2Pos.id. now apply pow2_pos. Qed.

(** The sample and its image, for a sample that is not negative. *)
Lemma roundtrip_positive (m : positive) (e : Z) :
  valid_binary 24 128 (S754_finite false m e) = true ->
  in_unit_interval (S754_finite false m e) = true ->
  (Qabs (value (decode_sample (encode_sample (S754_finite false m e)))
         - value (S754_finite false m e)) < 1 # 32767)%Q.
Proof.
  intros Hv Hu.
  destruct (encode_sample_finite false m e Hv Hu) as (Henc & He & Hm1 & Hm24).
  rewrite Henc. cbn [cond_Zopp scale]. rewrite shiftl_div by lia.
  set (a := - e) in *. assert (Ha : 0 <= a) by (unfold a; lia).
  pose proof (pow2_pos Ha) as HA.
  set (k := Z.pos (m * 32767) / 2 ^ a).
  assert (Hk : 0 <= k <= 32767).
  { unfold k. split; [apply Z.div_pos; lia|].
    apply Z.div_le_upper_bound; [lia|]. rewrite Pos2Z.inj_mul. nia. }
  assert (Hdiv : k * 2 ^ a <= Z.pos m * 32767 < (k + 1) * 2 ^ a).
  { unfold k. rewrite Pos2Z.inj_mul.
    pose proof (Z.mul_div_le (Z.pos m * 32767) (2 ^ a) HA).
    pose proof (Z.mul_succ_div_gt (Z.pos m * 32767) (2 ^ a) HA). lia. }
  assert (Hok : lattice_ok k = true) by (apply lattice_ok_all; lia).
  rewrite (value_nonpos_exponent false m) by lia. fold a. cbn [cond_Zopp].
  destruct (decode_sample k) as [s'|s'| |s' md ed] eqn:D.
  - destruct (lattice_ok_zero k Hok D) as [-> Hk0].
    change (value (S754_zero false)) with (0 # 1)%Q.
    apply Qabs_diff_lt. rewrite pow2_to_pos by lia.
    match goal with
    | |- Z.abs ?x * _ < _ => destruct (Z.abs_spec x) as [[_ ->]|[_ ->]]; lia
    end.
  - unfold lattice_ok in Hok. rewrite D in Hok. discriminate Hok.
  - unfold lattice_ok in Hok. rewrite D in Hok. discriminate Hok.
  - destruct s'.
    + destruct (lattice_ok_negative k Hok D) as (_ & _ & _ & Hneg & _). lia.
    + destruct (lattice_ok_positive k Hok D)
        as (_ & _ & Hed & Hk0 & Hmd & Hlow & Hup & _).
      rewrite (value_nonpos_exponent false md) by lia. cbn [cond_Zopp].
      apply Qabs_diff_lt. rewrite !pow2_to_pos by lia.
      apply positive_step with (k := k); try lia.
Qed.

(** The same for a negative sample. *)
Lemma roundtrip_negative (m : positive) (e : Z) :
  valid_binary 24 128 (S754_finite true m e) = true ->
  in_unit_interval (S754_finite true m e) = true ->
  (Qabs (value (decode_sample (encode_sample (S754_finite true m e)))
         - value (S754_finite true m e)) < 1 # 32767)%Q.
Proof.
  intros Hv Hu.
  destruct (encode_sample_finite true m e Hv Hu) as (Henc & He & Hm1 & Hm24).
  rewrite Henc. cbn [cond_Zopp scale]. rewrite shiftl_div by lia.
  set (a := - e) in *. assert (Ha : 0 <= a) by (unfold a; lia).
  pose proof (pow2_pos Ha) as HA.
  set (t := Z.pos (m * 32768) / 2 ^ a).
  assert (Ht : 0 <= t <= 32768).
  { unfold t. split; [apply Z.div_pos; lia|].
    apply Z.div_le_upper_bound; [lia|]. rewrite Pos2Z.inj_mul. nia. }
  assert (Hdiv : t * 2 ^ a <= Z.pos m * 32768 < (t + 1) * 2 ^ a).
  { unfold t. rewrite Pos2Z.inj_mul.
    pose proof (Z.mul_div_le (Z.pos m * 32768) (2 ^ a) HA).
    pose proof (Z.mul_succ_div_gt (Z.pos m * 32768) (2 ^ a) HA). lia. }
  assert (Hok : lattice_ok (- t) = true) by (apply lattice_ok_all; lia).
  rewrite (value_nonpos_exponent true m) by lia. fold a. cbn [cond_Zopp].
  destruct (decode_sample (- t)) as [s'|s'| |s' md ed] eqn:D.
  - destruct (lattice_ok_zero (- t) Hok D) as [-> Hk0].
    change (value (S754_zero false)) with (0 # 1)%Q.
    apply Qabs_diff_lt. rewrite pow2_to_pos by lia.
    match goal with
    | |- Z.abs ?x * _ < _ => destruct (Z.abs_spec x) as [[_ ->]|[_ ->]]; lia
    end.
  - unfold lattice_ok in Hok. rewrite D in Hok. discriminate Hok.
  - unfold lattice_ok in Hok. rewrite D in Hok. discriminate Hok.
  - destruct s'.
    + destruct (lattice_ok_negative (- t) Hok D) as (_ & _ & Hed & Hneg & Hmd & _).
      rewrite (value_nonpos_exponent true md) by lia. cbn [cond_Zopp].
      apply Qabs_diff_lt. rewrite !pow2_to_pos by lia.
      change (Z.neg md) with (- Z.pos md). change (Z.neg m) with (- Z.pos m).
      apply negative_step with (t := t); try lia.
    + destruct (lattice_ok_positive (- t) Hok D) as (_ & _ & _ & Hpos & _). lia.
Qed.

(** C5, as stated, fails: [int16ToFloat32 [1]] is on the 16-bit lattice, yet
    encoding it gives the code 0 and decoding that gives [+0], which is the
    whole sample away from it and not within one unit in the last place. *)
Lemma lattice_roundtrip_loses_a_step :
  exists x,
    int16ToFloat32 [1] = [x] /\
    x = S754_finite false 8388864 (-38) /\
    float32ToInt16 [x] = [0] /\
    int16ToFloat32 (float32ToInt16 [x]) = [S754_zero false] /\
    ~ (Qabs (value (S754_zero false) - value x) <= ulp32 x)%Q.
Proof.
  exists (S754_finite false 8388864 (-38)).
  repeat split; try reflexivity.
  intros H. vm_compute in H. apply H. reflexivity.
Qed.

(** C5, amended: for every binary32 sample [x] of [-1 .. 1], decoding the
    code of [x] gives a value less than one quantization step (1/32767) from
    [x]; and for a sample on the lattice, the image of a code [k], encoding
    gives [k] back when [k <= 0], and [k] or [k - 1] when [0 < k]. *)
Theorem codec_roundtrip (x : float32) (k : Z) :
  valid_binary 24 128 x = true -> in_unit_interval x = true ->
  -32768 <= k <= 32767 ->
  (exists y, int16ToFloat32 (float32ToInt16 [x]) = [y] /\
             (Qabs (value y - value x) < 1 # 32767)%Q) /\
  (exists k', float32ToInt16 (int16ToFloat32 [k]) = [k'] /\
              (k <= 0 -> k' = k) /\ (0 < k -> k' = k \/ k' = k - 1)).
Proof.
  intros Hv Hu Hk. split.
  - exists (decode_sample (encode_sample x)). split; [reflexivity|].
    destruct x as [s|s| |s m e].
    + rewrite encode_zero, decode_zero. destruct s; reflexivity.
    + destruct s; vm_compute in Hu; discriminate Hu.
    + vm_compute in Hu. discriminate Hu.
    + destruct s; [now apply roundtrip_negative|now apply roundtrip_positive].
  - exists (encode_sample (decode_sample k)). split; [reflexivity|].
    pose proof (lattice_ok_all Hk) as Hok.
    destruct (decode_sample k) as [s|s| |s md ed] eqn:D.
    + destruct (lattice_ok_zero k Hok D) as [-> ->]. split; [reflexivity|lia].
    + unfold lattice_ok in Hok. rewrite D in Hok. discriminate Hok.
    + unfold lattice_ok in Hok. rewrite D in Hok. discriminate Hok.
    + destruct s.
      * destruct (lattice_ok_negative k Hok D) as (Hvd & Hud & _ & Hneg & _ & Hre).
        destruct (encode_sample_finite true md ed Hvd Hud) as (-> & _).
        cbn [cond_Zopp scale]. rewrite Hre. lia.
      * destruct (lattice_ok_positive k Hok D) as (Hvd & Hud & _ & Hpos & _ & _ & _ & Hre).
        destruct (encode_sample_finite false md ed Hvd Hud) as (-> & _).
        cbn [cond_Zopp scale]. lia.
Qed.

Lemma codec_roundtrip_witness :
  (exists y, int16ToFloat32 (float32ToInt16 [S754_finite false 8388608 (-24)]) = [y] /\
             (Qabs (value y - value (S754_finite false 8388608 (-24))) < 1 # 32767)%Q) /\
  (exists k', float32ToInt16 (int16ToFloat32 [1]) = [k'] /\
              (1 <= 0 -> k' = 1) /\ (0 < 1 -> k' = 1 \/ k' = 1 - 1)).
Proof.
  apply (@codec_roundtrip (S754_finite false 8388608 (-24)) 1).
  - reflexivity.
  - reflexivity.
  - lia.
Defined.

(** ** Saturation *)

Lemma ToInt16_range (x : number) : -32768 <= ToInt16 x <= 32767.
Proof.
  destruct x as [s|s| |s m e]; cbn [ToInt16]; try lia.
  pose proof (Z.mod_pos_bound (truncZ s m e + 32768) 65536 eq_refl). lia.
Qed.

Lemma Math_min_above (b : number) :
  leb (of_Z 1) b = true -> Math_min (of_Z 1) b = of_Z 1.
Proof.
  unfold leb, SFleb, Math_min.
  destruct (SFcompare (of_Z 1) b) as [[| |]|] eqn:E; intros H;
    try reflexivity; try discriminate H.
  destruct b as [[|]|[|]| |s m e]; try reflexivity.
  vm_compute in E. discriminate E.
Qed.

Lemma Math_min_below (b : number) :
  leb b (of_Z (-1)) = true -> Math_min (of_Z 1) b = b.
Proof.
  unfold leb, SFleb, Math_min. rewrite of_Z_one, of_Z_minus_one.
  destruct b as [s|s| |s m e]; cbn [SFcompare]; intros H.
  - discriminate H.
  - destruct s; [reflexivity|discriminate H].
  - discriminate H.
  - destruct s; [reflexivity|discriminate H].
Qed.

Lemma Math_max_below (b : number) :
  leb b (of_Z (-1)) = true -> Math_max (of_Z (-1)) b = of_Z (-1).
Proof.
  unfold leb, SFleb, Math_max. rewrite (SFcompare_antisym b (of_Z (-1))).
  destruct (SFcompare b (of_Z (-1))) as [[| |]|]; intros H;
    try reflexivity; discriminate H.
Qed.

Lemma float32ToInt16_range (float32 : list float32) :
  Forall (fun k => -32768 <= k <= 32767) (float32ToInt16 float32).
Proof.
  apply Forall_map, Forall_forall. intros x _. apply ToInt16_range.
Qed.

(** A sample at or above 1, plus infinity included, is encoded as 32767. *)
Theorem encode_sample_saturates_high (x : float32) :
  leb (of_Z 1) (to_number x) = true -> encode_sample x = 32767.
Proof.
  intros H. unfold encode_sample. rewrite (Math_min_above _ H). reflexivity.
Qed.

(** A sample at or below -1, minus infinity included, is encoded as
    -32768. *)
Theorem encode_sample_saturates_low (x : float32) :
  leb (to_number x) (of_Z (-1)) = true -> encode_sample x = -32768.
Proof.
  intros H. unfold encode_sample.
  rewrite (Math_min_below _ H), (Math_max_below _ H). reflexivity.
Qed.

(** [float32ToInt16] gives as many codes as it is given samples, each of
    them a value of an [Int16Array], whatever the samples are; a NaN sample
    gives the code 0. *)
Theorem float32ToInt16_codes (float32 : list float32) :
  List.length (float32ToInt16 float32) = List.length float32 /\
  Forall (fun k => -32768 <= k <= 32767) (float32ToInt16 float32) /\
  (forall i, nth_error float32 i = Some NaN -> nth_error (float32ToInt16 float32) i = Some 0).
Proof.
  split; [apply length_map|]. split; [apply float32ToInt16_range|].
  intros i Hi. unfold float32ToInt16. rewrite nth_error_map, Hi. reflexivity.
Qed.

(** ** The values decoded *)

Lemma decode_sample_in_unit (k : Z) :
  -32768 <= k <= 32767 ->
  valid_binary 24 128 (decode_sample k) = true /\
  in_unit_interval (decode_sample k) = true.
Proof.
  intros Hk. pose proof (@lattice_ok_all k Hk) as L.
  destruct (decode_sample k) as [s|s| |s md ed] eqn:D.
  - destruct (@lattice_ok_zero k s L D) as [-> ->]. split; reflexivity.
  - unfold lattice_ok in L. rewrite D in L. discriminate L.
  - unfold lattice_ok in L. rewrite D in L. discriminate L.
  - destruct s.
    + destruct (@lattice_ok_negative k md ed L D) as (Hv & Hu & _). now split.
    + destruct (@lattice_ok_positive k md ed L D) as (Hv & Hu & _). now split.
Qed.

(** Every code decodes to a binary32 value of [-1 .. 1]; a code below zero
    decodes to exactly [k / 32768], and the code 0 to [+0]. *)
Theorem decode_sample_values (k : Z) :
  -32768 <= k <= 32767 ->
  valid_binary 24 128 (decode_sample k) = true /\
  in_unit_interval (decode_sample k) = true /\
  (k <= 0 -> (value (decode_sample k) == k # 32768)%Q) /\
  (k = 0 -> decode_sample k = S754_zero false).
Proof.
  intros Hk. destruct (decode_sample_in_unit Hk) as [Hv Hu].
  split; [exact Hv|]. split; [exact Hu|]. split; [|intros ->; reflexivity].
  pose proof (@lattice_ok_all k Hk) as L.
  destruct (decode_sample k) as [s|s| |s md ed] eqn:D.
  - destruct (@lattice_ok_zero k s L D) as [-> ->]. reflexivity.
  - unfold lattice_ok in L. rewrite D in L. discriminate L.
  - unfold lattice_ok in L. rewrite D in L. discriminate L.
  - destruct s.
    + destruct (@lattice_ok_negative k md ed L D) as (_ & _ & He & Hneg & Hmd & _).
      intros _.
      rewrite (@value_nonpos_exponent true md ed He). cbn [cond_Zopp].
      unfold Qeq. cbn [Qnum Qden]. rewrite pow2_to_pos by lia.
      change (Z.pos 32768) with 32768.
      generalize dependent (2 ^ (- ed)). intros p Hp. lia.
    + destruct (@lattice_ok_positive k md ed L D) as (_ & _ & _ & Hpos & _). lia.
Qed.

(** ** The theorems above at sample values *)

Lemma encode_sample_saturates_high_witness :
  encode_sample (S754_infinity false) = 32767.
Proof. apply encode_sample_saturates_high. reflexivity. Defined.

Lemma encode_sample_saturates_low_witness :
  encode_sample (S754_finite true 12582912 (-23)) = -32768.
Proof. apply encode_sample_saturates_low. reflexivity. Defined.

Lemma float32ToInt16_codes_witness :
  nth_error (float32ToInt16 [S754_zero false; NaN]) 1 = Some 0.
Proof.
  exact (proj2 (proj2 (float32ToInt16_codes [S754_zero false; NaN])) 1%nat eq_refl).
Defined.

Lemma decode_sample_values_witness :
  (value (decode_sample (-16384)) == -16384 # 32768)%Q.
Proof.
  refine (proj1 (proj2 (proj2 (@decode_sample_values (-16384) _))) _); lia.
Defined.

End CodecFacts.

(* ================================================================== *)
(** * Facts: resampler *)
(* ================================================================== *)

Module ResamplerFacts.
Import JS Resampler.

(** The fast path: a block at 16000 Hz is returned as it is. *)
Lemma downsample_fast_path (buffer : list float32) (sampleRate : number) :
  strict_eq sampleRate (of_Z 16000) = true ->
  downsampleTo16000 buffer sampleRate = Some buffer /\ reads buffer sampleRate = [].
Proof.
  intros H. unfold downsampleTo16000, reads. now rewrite H.
Qed.

(** C7 at a block of 567 samples and 37800 Hz: the ratio is the double
    nearest to 2.3625, which is below it; 567 / ratio rounds to the double
    above 240, so that 241 turns are made; in the last one 240 * ratio rounds
    to 567, and [buffer[567]] is read, one past the last sample. *)
Lemma downsample_reads_past_the_end :
  newLength (silence 567) (of_Z 37800) = Some 241%nat /\
  option_map (fun ts => option_map index (nth_error ts 240)) (taps (silence 567) (of_Z 37800))
    = Some (Some (of_Z 567)) /\
  get (silence 567) (of_Z 567) = None /\
  forallb (in_bounds (silence 567)) (reads (silence 567) (of_Z 37800)) = false.
Proof.
  repeat split; vm_compute; reflexivity.
Qed.

(** C6 at the same input: the result has 241 elements, one more than the
    ceiling of 567 / (37800 / 16000) = 240, and its last element is NaN, not
    an interpolation of two samples of the block, which are all zero. *)
Lemma downsample_length_and_NaN :
  exists result,
    downsampleTo16000 (silence 567) (of_Z 37800) = Some result /\
    List.length result = 241%nat /\
    nth_error result 240 = Some NaN /\
    Qceiling (567 / (37800 / 16000)) = 240%Z.
Proof.
  eexists. split; [vm_compute; reflexivity|]. repeat split.
Qed.

(** ** Blocks on which the loop stays within the block *)

(** A block without samples gives a result without samples at every rate,
    NaN and the infinities included, and nothing is read. *)
Theorem downsample_empty_block (sampleRate : number) :
  downsampleTo16000 [] sampleRate = Some [] /\ reads [] sampleRate = [].
Proof.
  unfold downsampleTo16000, reads.
  destruct (strict_eq sampleRate (of_Z 16000)); [split; reflexivity|].
  assert (H : taps [] sampleRate = Some []).
  { unfold taps, newLength. cbn [List.length].
    change (of_nat 0) with (S754_zero false).
    destruct (ratio_of sampleRate) as [s|s| |s m e]; reflexivity. }
  rewrite H. split; reflexivity.
Qed.

Lemma in_bounds_range (buffer : list float32) (i : number) :
  in_bounds buffer i = Capture.index_in_range (List.length buffer) i.
Proof.
  unfold in_bounds, get, Capture.index_in_range.
  destruct (integer_value i) as [z|]; [|reflexivity].
  destruct (Z.ltb_spec z 0) as [Hz|Hz].
  - destruct (Z.leb_spec 0 z); [lia|reflexivity].
  - destruct (Z.leb_spec 0 z); [|lia]. cbn [andb].
    destruct (nth_error buffer (Z.to_nat z)) as [x|] eqn:E.
    + assert (Z.to_nat z < List.length buffer)%nat
        by (apply nth_error_Some; congruence).
      symmetry. apply Z.ltb_lt. lia.
    + apply nth_error_None in E. symmetry. apply Z.ltb_ge. lia.
Qed.

Lemma length_silence (n : nat) : List.length (silence n) = n.
Proof. apply repeat_length. Qed.

(** Which indices are read depends on the length of the block and on the
    rate, not on the samples. *)
Lemma reads_silence (buffer : list float32) (sampleRate : number) :
  reads buffer sampleRate = reads (silence (List.length buffer)) sampleRate.
Proof.
  unfold reads, taps, newLength. now rewrite length_silence.
Qed.

Lemma downsample_length (buffer : list float32) (sampleRate : number) (n : nat) :
  strict_eq sampleRate (of_Z 16000) = false ->
  newLength (silence (List.length buffer)) sampleRate = Some n ->
  exists result,
    downsampleTo16000 buffer sampleRate = Some result /\ List.length result = n.
Proof.
  unfold downsampleTo16000, taps, newLength. rewrite length_silence.
  intros -> ->. eexists. split; [reflexivity|].
  now rewrite !length_map, length_seq.
Qed.

Lemma capture_block_table :
  newLength (silence 4096) (of_Z 48000) = Some 1366%nat /\
  forallb (Capture.index_in_range 4096) (reads (silence 4096) (of_Z 48000)) = true /\
  newLength (silence 4096) (of_Z 44100) = Some 1487%nat /\
  forallb (Capture.index_in_range 4096) (reads (silence 4096) (of_Z 44100)) = true.
Proof.
  split; [vm_compute; reflexivity|]. split; [vm_compute; reflexivity|].
  split; vm_compute; reflexivity.
Qed.

Lemma forallb_pointwise (A : Type) (f g : A -> bool) (l : list A) :
  (forall x, f x = g x) -> forallb f l = forallb g l.
Proof. intros H. induction l as [|x r IH]; cbn; [reflexivity|]. now rewrite H, IH. Qed.

(** A block of 4096 samples, the size the script processor is created with,
    at 48000 Hz gives 1366 samples and at 44100 Hz 1487, and every index read
    is one of the block, whatever the samples are. *)
Theorem downsample_capture_block (buffer : list float32) :
  List.length buffer = 4096%nat ->
  (exists result,
     downsampleTo16000 buffer (of_Z 48000) = Some result /\
     List.length result = 1366%nat) /\
  forallb (in_bounds buffer) (reads buffer (of_Z 48000)) = true /\
  (exists result,
     downsampleTo16000 buffer (of_Z 44100) = Some result /\
     List.length result = 1487%nat) /\
  forallb (in_bounds buffer) (reads buffer (of_Z 44100)) = true.
Proof.
  intros Hlen. destruct capture_block_table as (N1 & R1 & N2 & R2).
  repeat split.
  - apply downsample_length; [reflexivity|now rewrite Hlen].
  - rewrite reads_silence, Hlen.
    rewrite <- R1. apply forallb_pointwise. intros i. now rewrite in_bounds_range, Hlen.
  - apply downsample_length; [reflexivity|now rewrite Hlen].
  - rewrite reads_silence, Hlen.
    rewrite <- R2. apply forallb_pointwise. intros i. now rewrite in_bounds_range, Hlen.
Qed.

(** ** The theorem above at a sample block *)

Lemma downsample_capture_block_witness :
  forallb (in_bounds (silence 4096)) (reads (silence 4096) (of_Z 48000)) = true.
Proof.
  exact (proj1 (proj2 (@downsample_capture_block (silence 4096) (length_silence 4096)))).
Defined.

End ResamplerFacts.

(* ================================================================== *)
(** * Facts: the live service *)
(* ================================================================== *)

Module ServiceFacts.
Import JS Service FloatFacts.
Local Open Scope string_scope.

(** ** The playback scheduler *)

Ltac run_eff :=
  cbv beta iota delta [bind ret throw get modify try_catch await on_service on_app
                       fst snd].

Lemma queueAudio_decoded (env : PlaybackEnv) (base64Data : string)
  (t : GeminiLiveService) (ctx : AudioContext) (an : AnalyserNode) (buf : AudioBuffer) :
  outputAudioContext t = Some ctx -> outputAnalyser t = Some an ->
  decode_chunk base64Data = Normal buf ->
  queueAudio env base64Data t =
    (Normal tt,
     set_nextStartTime
       (add (scheduled_at (nextStartTime t) (currentTime env)) (duration buf))
       (set_outputAudioContext
          (Some (start_source (scheduled_at (nextStartTime t) (currentTime env)) buf
                              (after_resume env ctx)))
          (set_outputAnalyser (Some (connect_analyser OutputDestination an)) t))).
Proof.
  intros Hctx Han Hdec. unfold queueAudio, scheduled_at, after_resume. run_eff.
  rewrite Hctx, Han.
  destruct (is_suspended ctx); [destruct (resume env) as [[]|e]|];
    cbn; rewrite ?Hctx, ?Han, Hdec; cbn;
    destruct (ltb (nextStartTime t) (currentTime env)); cbn; rewrite ?Hctx, ?Han;
    reflexivity.
Qed.

Lemma queueAudio_dropped (env : PlaybackEnv) (base64Data : string)
  (t : GeminiLiveService) (ctx : AudioContext) (an : AnalyserNode) (e : string) :
  outputAudioContext t = Some ctx -> outputAnalyser t = Some an ->
  decode_chunk base64Data = Throw e ->
  queueAudio env base64Data t =
    (Normal tt, set_outputAudioContext (Some (after_resume env ctx)) t).
Proof.
  intros Hctx Han Hdec. unfold queueAudio, after_resume. run_eff.
  rewrite Hctx, Han.
  destruct (is_suspended ctx); [destruct (resume env) as [[]|e']|];
    cbn; rewrite ?Hctx, ?Han, Hdec; cbn; try reflexivity.
  all: destruct t; cbn in *; subst; reflexivity.
Qed.

Lemma queueAudio_idle (env : PlaybackEnv) (base64Data : string) (t : GeminiLiveService) :
  outputAudioContext t = None \/ outputAnalyser t = None ->
  queueAudio env base64Data t = (Normal tt, t).
Proof.
  intros H. unfold queueAudio. run_eff.
  destruct (outputAudioContext t), (outputAnalyser t); try reflexivity.
  destruct H; discriminate.
Qed.

Lemma started_after_resume env ctx : started (after_resume env ctx) = started ctx.
Proof.
  unfold after_resume. destruct (is_suspended ctx); [destruct (resume env)|]; reflexivity.
Qed.

(** C3: when [queueAudio] is given a chunk that decodes to a buffer of
    duration [d], with [now] the output clock read at scheduling: if the
    cursor is behind [now] the buffer is started at [now] and the cursor
    becomes [now + d]; otherwise it is started at the cursor and the cursor
    becomes [cursor + d].  The buffer is appended to those started before, and
    unless a NaN is involved the start time is at or after [now]. *)
Theorem queueAudio_schedules (env : PlaybackEnv) (base64Data : string)
  (t : GeminiLiveService) (ctx : AudioContext) (an : AnalyserNode) (buf : AudioBuffer) :
  outputAudioContext t = Some ctx -> outputAnalyser t = Some an ->
  decode_chunk base64Data = Normal buf ->
  let now := currentTime env in
  let cursor := nextStartTime t in
  let d := duration buf in
  exists t' ctx' at_,
    queueAudio env base64Data t = (Normal tt, t') /\
    outputAudioContext t' = Some ctx' /\
    started ctx' = (started ctx ++ [(at_, buf)])%list /\
    nextStartTime t' = add at_ d /\
    (ltb cursor now = true -> at_ = now) /\
    (ltb cursor now = false -> at_ = cursor) /\
    (is_nan cursor = false -> is_nan now = false -> leb now at_ = true).
Proof.
  intros Hctx Han Hdec now cursor d.
  exists (set_nextStartTime
            (add (scheduled_at cursor now) d)
            (set_outputAudioContext
               (Some (start_source (scheduled_at cursor now) buf (after_resume env ctx)))
               (set_outputAnalyser (Some (connect_analyser OutputDestination an)) t))),
         (start_source (scheduled_at cursor now) buf (after_resume env ctx)),
         (scheduled_at cursor now).
  split; [now apply queueAudio_decoded|].
  split; [reflexivity|].
  split; [cbn [started start_source]; now rewrite started_after_resume|].
  split; [reflexivity|].
  unfold scheduled_at.
  repeat split; try (intros ->; reflexivity).
  intros Hc Hn. destruct (ltb cursor now) eqn:E.
  - now apply leb_refl.
  - now apply not_ltb_leb.
Qed.


Lemma queueAudio_returns (env : PlaybackEnv) (d : string) (t : GeminiLiveService) :
  fst (queueAudio env d t) = Normal tt.
Proof.
  destruct (outputAudioContext t) as [ctx|] eqn:Hc;
    [destruct (outputAnalyser t) as [an|] eqn:Ha|].
  - destruct (decode_chunk d) as [buf|e] eqn:Hd.
    + now rewrite (queueAudio_decoded env _ _ Hc Ha Hd).
    + now rewrite (queueAudio_dropped env _ _ Hc Ha Hd).
  - rewrite queueAudio_idle; auto.
  - rewrite queueAudio_idle; auto.
Qed.

Lemma queueAudio_same_playback (env : PlaybackEnv) (d : string) (t1 t2 : GeminiLiveService) :
  same_playback t1 t2 ->
  same_playback (snd (queueAudio env d t1)) (snd (queueAudio env d t2)).
Proof.
  intros (Hs & Hi & Ho & Hsrc & Hp & Hn & Hia & Hoa & Hm).
  destruct (outputAudioContext t1) as [c1|] eqn:Hc1, (outputAudioContext t2) as [c2|] eqn:Hc2;
    try discriminate.
  2:{ rewrite !queueAudio_idle by auto. cbn. unfold same_playback.
      rewrite Hc1, Hc2. tauto. }
  cbn in Ho. injection Ho as Ho.
  destruct (outputAnalyser t1) as [a1|] eqn:Ha1.
  2:{ rewrite !queueAudio_idle by (right; congruence). cbn. unfold same_playback.
      rewrite Hc1, Hc2, Ha1. cbn. rewrite Ho. tauto. }
  assert (Ha2 : outputAnalyser t2 = Some a1) by congruence.
  destruct (decode_chunk d) as [buf|e] eqn:Hd.
  - rewrite (queueAudio_decoded env _ _ Hc1 Ha1 Hd), (queueAudio_decoded env _ _ Hc2 Ha2 Hd).
    unfold same_playback; cbn. rewrite !started_after_resume, Ho, Hn. repeat split; congruence.
  - rewrite (queueAudio_dropped env _ _ Hc1 Ha1 Hd), (queueAudio_dropped env _ _ Hc2 Ha2 Hd).
    unfold same_playback; cbn. rewrite !started_after_resume, Ho. repeat split; congruence.
Qed.

Lemma queue_all_same_playback (chunks : list (PlaybackEnv * string)) :
  forall t1 t2, same_playback t1 t2 ->
  same_playback (snd (queue_all chunks t1)) (snd (queue_all chunks t2)).
Proof.
  induction chunks as [|[env d] r IH]; intros t1 t2 H; [exact H|].
  unfold queue_all. cbn [for_each fst snd]. unfold bind.
  pose proof (queueAudio_returns env d t1) as R1.
  pose proof (queueAudio_returns env d t2) as R2.
  pose proof (queueAudio_same_playback env d H) as H'.
  destruct (queueAudio env d t1) as [r1 u1], (queueAudio env d t2) as [r2 u2].
  cbn in R1, R2, H'. subst r1 r2. now apply IH.
Qed.

(** C9: a chunk whose decoding or buffer construction throws is dropped:
    [queueAudio] returns, the cursor and the buffers started are as before,
    and whatever chunks follow are scheduled as if it had never arrived. *)
Theorem queueAudio_malformed_chunk (env : PlaybackEnv) (base64Data e : string)
  (t : GeminiLiveService) :
  decode_chunk base64Data = Throw e ->
  exists t',
    queueAudio env base64Data t = (Normal tt, t') /\
    nextStartTime t' = nextStartTime t /\
    option_map started (outputAudioContext t') = option_map started (outputAudioContext t) /\
    forall later : list (PlaybackEnv * string),
      fst (queue_all later t') = fst (queue_all later t) /\
      same_playback (snd (queue_all later t')) (snd (queue_all later t)).
Proof.
  intros Hd.
  assert (H : exists t', queueAudio env base64Data t = (Normal tt, t') /\ same_playback t' t).
  { destruct (outputAudioContext t) as [ctx|] eqn:Hc;
      [destruct (outputAnalyser t) as [an|] eqn:Ha|].
    - eexists. split; [exact (queueAudio_dropped env _ _ Hc Ha Hd)|].
      unfold same_playback; cbn. rewrite started_after_resume, Hc. tauto.
    - eexists. split; [apply queueAudio_idle; auto|]. unfold same_playback; tauto.
    - eexists. split; [apply queueAudio_idle; auto|]. unfold same_playback; tauto. }
  destruct H as (t' & Hq & Hsame). exists t'. split; [exact Hq|].
  split; [apply Hsame|]. split; [apply Hsame|].
  intros later. split; [|now apply queue_all_same_playback].
  clear Hq. revert t t' Hsame. clear. induction later as [|[env d] r IH]; intros t t' H; [reflexivity|].
  unfold queue_all. cbn [for_each fst snd]. unfold bind.
  pose proof (queueAudio_returns env d t) as R1.
  pose proof (queueAudio_returns env d t') as R2.
  pose proof (queueAudio_same_playback env d H) as H'.
  destruct (queueAudio env d t) as [r1 u1], (queueAudio env d t') as [r2 u2].
  cbn in R1, R2, H'. subst r1 r2. now apply IH.
Qed.


(** ** Tool calls *)

Section ToolCalls.
Variable W : Type.
Variable callbacks : ToolCallbacks W.

Lemma responseResult_returns (call : FunctionCall) (w : W) :
  responseResult callbacks call w =
    (Normal match fst (dispatch callbacks call w) with
            | Normal j => j
            | Throw _ => error_payload
            end,
     snd (dispatch callbacks call w)).
Proof.
  unfold responseResult, try_catch, ret.
  destruct (dispatch callbacks call w) as [[j|e] w']; reflexivity.
Qed.

Lemma dispatch_unrecognised (call : FunctionCall) (w : W) :
  recognised (name call) = false -> dispatch callbacks call w = (Normal generic_ok, w).
Proof.
  unfold recognised, dispatch. cbn [existsb]. rewrite !orb_false_iff.
  intros (-> & -> & -> & -> & _). reflexivity.
Qed.

Lemma for_each_handle_call (calls : list FunctionCall) :
  forall (t : GeminiLiveService) (w : W) (s0 : LiveSession),
    session t = Some s0 ->
    exists t',
      for_each (handle_call callbacks) calls (t, w) = (Normal tt, (t', app_after callbacks calls w)) /\
      session t' =
        Some {| is_open := is_open s0;
                sent := (sent s0 ++ map (fun r => ToolResponse [r]) (responses callbacks calls w))%list |}.
Proof.
  induction calls as [|call r IH]; intros t w s0 Hs.
  - exists t. cbn. rewrite app_nil_r. split; [reflexivity|]. now destruct s0.
  - cbn [for_each]. unfold bind at 1. unfold handle_call at 1.
    unfold bind at 1. unfold on_app at 1. cbn [snd fst].
    rewrite responseResult_returns. cbn [fst snd].
    unfold on_service, sendToolResponse, modify. cbn [fst snd].
    rewrite Hs. cbn [option_map].
    edestruct (IH (set_session
                     (Some (send (ToolResponse
                        [{| fr_id := id call; fr_name := name call;
                            fr_response :=
                              match fst (dispatch callbacks call w) with
                              | Normal j => j
                              | Throw _ => error_payload
                              end |}]) s0)) t)
                  (snd (dispatch callbacks call w))) as (t' & Hrun & Hses);
      [reflexivity|].
    exists t'. split.
    + rewrite Hrun. cbn [app_after fold_left]. now rewrite responseResult_returns.
    + rewrite Hses. cbn [is_open sent send responses map].
      rewrite responseResult_returns. cbn [snd]. now rewrite <- app_assoc.
Qed.

Lemma responses_ids (calls : list FunctionCall) :
  forall w, map (fun r => (fr_id r, fr_name r)) (responses callbacks calls w)
            = map (fun c => (id c, name c)) calls.
Proof.
  induction calls as [|call r IH]; intros w; cbn; [reflexivity|]. now rewrite IH.
Qed.

Lemma responses_nth (calls : list FunctionCall) :
  forall (w : W) (i : nat) (call : FunctionCall) (r : FunctionResponse),
    nth_error calls i = Some call -> nth_error (responses callbacks calls w) i = Some r ->
    fr_response r =
      match fst (dispatch callbacks call (app_after callbacks (firstn i calls) w)) with
      | Normal j => j
      | Throw _ => error_payload
      end.
Proof.
  induction calls as [|c0 rest IH]; intros w i call r Hc Hr.
  - destruct i; discriminate.
  - destruct i as [|i]; cbn in Hc, Hr.
    + injection Hc as <-. injection Hr as <-. reflexivity.
    + cbn [firstn app_after fold_left]. apply (IH _ _ _ _ Hc Hr).
Qed.

Lemma queueAudio_session (env : PlaybackEnv) (d : string) (t : GeminiLiveService) :
  session (snd (queueAudio env d t)) = session t.
Proof.
  destruct (outputAudioContext t) as [ctx|] eqn:Hc;
    [destruct (outputAnalyser t) as [an|] eqn:Ha|].
  - destruct (decode_chunk d) as [buf|e] eqn:Hd.
    + now rewrite (queueAudio_decoded env _ _ Hc Ha Hd).
    + now rewrite (queueAudio_dropped env _ _ Hc Ha Hd).
  - rewrite queueAudio_idle; auto.
  - rewrite queueAudio_idle; auto.
Qed.

Lemma responseResult_by_name (call : FunctionCall) (w : W) :
  (name call = "saveAadhar" ->
     responseResult callbacks call w =
       match onSaveAadhar callbacks (args call) w with
       | (Normal _, w1) => (Normal [("status", "Aadhar Saved. Proceed to PAN.")], w1)
       | (Throw _, w1) => (Normal [("error", "Failed to execute tool")], w1)
       end) /\
  (name call = "savePan" ->
     responseResult callbacks call w =
       match onSavePan callbacks (args call) w with
       | (Normal _, w1) => (Normal [("status", "PAN Saved. Proceed to Verify.")], w1)
       | (Throw _, w1) => (Normal [("error", "Failed to execute tool")], w1)
       end) /\
  (name call = "verifyDetails" ->
     responseResult callbacks call w =
       match onVerifyDetails callbacks (args call) w with
       | (Normal result, w1) => (Normal [("status", result)], w1)
       | (Throw _, w1) => (Normal [("error", "Failed to execute tool")], w1)
       end) /\
  (name call = "createDigilocker" ->
     responseResult callbacks call w =
       match onCreateDigilocker callbacks (args call) w with
       | (Normal _, w1) => (Normal [("status", "Account Created.")], w1)
       | (Throw _, w1) => (Normal [("error", "Failed to execute tool")], w1)
       end) /\
  (recognised (name call) = false ->
     responseResult callbacks call w = (Normal [("result", "ok")], w)).
Proof.
  unfold responseResult, try_catch. repeat split.
  - intros E. unfold dispatch. rewrite E. cbn [String.eqb Ascii.eqb Bool.eqb].
    unfold bind, ret. destruct (onSaveAadhar callbacks (args call) w) as [[u|e] w1]; reflexivity.
  - intros E. unfold dispatch. rewrite E. cbn [String.eqb Ascii.eqb Bool.eqb].
    unfold bind, ret. destruct (onSavePan callbacks (args call) w) as [[u|e] w1]; reflexivity.
  - intros E. unfold dispatch. rewrite E. cbn [String.eqb Ascii.eqb Bool.eqb].
    unfold bind, ret. destruct (onVerifyDetails callbacks (args call) w) as [[u|e] w1]; reflexivity.
  - intros E. unfold dispatch. rewrite E. cbn [String.eqb Ascii.eqb Bool.eqb].
    unfold bind, ret.
    destruct (onCreateDigilocker callbacks (args call) w) as [[u|e] w1]; reflexivity.
  - intros E. now rewrite (dispatch_unrecognised _ _ E).
Qed.

Lemma app_after_step (calls : list FunctionCall) :
  forall (w : W) (i : nat) (call : FunctionCall),
    nth_error calls i = Some call ->
    app_after callbacks (firstn (S i) calls) w
    = snd (responseResult callbacks call (app_after callbacks (firstn i calls) w)).
Proof.
  induction calls as [|c0 rest IH]; intros w i call Hc.
  - destruct i; discriminate.
  - destruct i as [|i]; cbn in Hc.
    + injection Hc as <-. destruct rest; reflexivity.
    + change (firstn (S (S i)) (c0 :: rest)) with (c0 :: firstn (S i) rest).
      change (firstn (S i) (c0 :: rest)) with (c0 :: firstn i rest).
      cbn [app_after fold_left]. apply (IH _ _ _ Hc).
Qed.

(** C1: a message carrying a tool call of [n] invocations, received while a
    session is held, makes the service send [n] tool responses after what was
    sent before, one entry each, in the order of the invocations and with
    their ids and names.  With [st i] the state of the application before
    invocation [i]: the handler of the name invoked is run on the arguments
    in that state, and the entry carries the status of that name when the
    handler returns and the error payload when it throws, the application
    being left as the handler left it; an invocation of no known name runs no
    handler and is answered with the generic ok result. *)
Theorem handleMessage_tool_responses (env : PlaybackEnv) (message : LiveServerMessage)
  (tc : LiveServerToolCall) (t : GeminiLiveService) (w : W) (s0 : LiveSession) :
  toolCall message = Some tc -> session t = Some s0 ->
  exists t' w' s' rs (st : nat -> W),
    handleMessage callbacks env message (t, w) = (Normal tt, (t', w')) /\
    session t' = Some s' /\
    sent s' = (sent s0 ++ map (fun r => ToolResponse [r]) rs)%list /\
    List.length rs = List.length (functionCalls tc) /\
    map (fun r => (fr_id r, fr_name r)) rs
      = map (fun c => (id c, name c)) (functionCalls tc) /\
    st 0%nat = w /\ st (List.length (functionCalls tc)) = w' /\
    forall i call r,
      nth_error (functionCalls tc) i = Some call -> nth_error rs i = Some r ->
      (name call = "saveAadhar" ->
         (fr_response r, st (S i)) =
           match onSaveAadhar callbacks (args call) (st i) with
           | (Normal _, w1) => ([("status", "Aadhar Saved. Proceed to PAN.")], w1)
           | (Throw _, w1) => ([("error", "Failed to execute tool")], w1)
           end) /\
      (name call = "savePan" ->
         (fr_response r, st (S i)) =
           match onSavePan callbacks (args call) (st i) with
           | (Normal _, w1) => ([("status", "PAN Saved. Proceed to Verify.")], w1)
           | (Throw _, w1) => ([("error", "Failed to execute tool")], w1)
           end) /\
      (name call = "verifyDetails" ->
         (fr_response r, st (S i)) =
           match onVerifyDetails callbacks (args call) (st i) with
           | (Normal result, w1) => ([("status", result)], w1)
           | (Throw _, w1) => ([("error", "Failed to execute tool")], w1)
           end) /\
      (name call = "createDigilocker" ->
         (fr_response r, st (S i)) =
           match onCreateDigilocker callbacks (args call) (st i) with
           | (Normal _, w1) => ([("status", "Account Created.")], w1)
           | (Throw _, w1) => ([("error", "Failed to execute tool")], w1)
           end) /\
      (recognised (name call) = false ->
         (fr_response r, st (S i)) = ([("result", "ok")], st i)).
Proof.
  intros Htc Hs. unfold handleMessage. rewrite Htc. unfold bind at 1.
  set (audio := match audioData message with
                | Some d => if String.eqb d "" then ret tt else on_service (queueAudio env d)
                | None => ret tt
                end).
  assert (Ha : exists t1, audio (t, w) = (Normal tt, (t1, w)) /\ session t1 = Some s0).
  { subst audio. destruct (audioData message) as [d|]; [destruct (String.eqb d "")|];
      try (exists t; split; [reflexivity|assumption]).
    unfold on_service. cbn [fst snd].
    pose proof (queueAudio_returns env d t) as R.
    pose proof (queueAudio_session env d t) as S.
    destruct (queueAudio env d t) as [r t1]. cbn in R, S. subst r.
    exists t1. split; [reflexivity|congruence]. }
  destruct Ha as (t1 & -> & Hs1).
  destruct (for_each_handle_call (functionCalls tc) t1 w Hs1) as (t' & Hrun & Hses).
  eexists t', (app_after callbacks (functionCalls tc) w), _,
          (responses callbacks (functionCalls tc) w),
          (fun i => app_after callbacks (firstn i (functionCalls tc)) w).
  split; [exact Hrun|]. split; [exact Hses|]. split; [reflexivity|].
  split.
  { rewrite <- (length_map (fun r => (fr_id r, fr_name r))), responses_ids. apply length_map. }
  split; [apply responses_ids|].
  split; [reflexivity|]. split; [now rewrite firstn_all|].
  intros i call r Hc Hr.
  assert (Hstep : (Normal (fr_response r),
                   app_after callbacks (firstn (S i) (functionCalls tc)) w)
                  = responseResult callbacks call
                      (app_after callbacks (firstn i (functionCalls tc)) w)).
  { rewrite (@app_after_step (functionCalls tc) w i call Hc), (responses_nth _ _ _ Hc Hr).
    now rewrite responseResult_returns. }
  destruct (responseResult_by_name call
              (app_after callbacks (firstn i (functionCalls tc)) w))
    as (H1 & H2 & H3 & H4 & H5).
  cbv beta. repeat split.
  - intros E. rewrite (H1 E) in Hstep.
    destruct (onSaveAadhar callbacks (args call) _) as [[u|e] w1];
      exact (f_equal (fun p : completion Json * W =>
                         (match fst p with Normal j => j | Throw _ => [] end, snd p)) Hstep).
  - intros E. rewrite (H2 E) in Hstep.
    destruct (onSavePan callbacks (args call) _) as [[u|e] w1];
      exact (f_equal (fun p : completion Json * W =>
                         (match fst p with Normal j => j | Throw _ => [] end, snd p)) Hstep).
  - intros E. rewrite (H3 E) in Hstep.
    destruct (onVerifyDetails callbacks (args call) _) as [[u|e] w1];
      exact (f_equal (fun p : completion Json * W =>
                         (match fst p with Normal j => j | Throw _ => [] end, snd p)) Hstep).
  - intros E. rewrite (H4 E) in Hstep.
    destruct (onCreateDigilocker callbacks (args call) _) as [[u|e] w1];
      exact (f_equal (fun p : completion Json * W =>
                         (match fst p with Normal j => j | Throw _ => [] end, snd p)) Hstep).
  - intros E. rewrite (H5 E) in Hstep.
    exact (f_equal (fun p : completion Json * W =>
                         (match fst p with Normal j => j | Throw _ => [] end, snd p)) Hstep).
Qed.

End ToolCalls.



(** ** Life cycle *)

Lemma stop_tracks_idem (m : MediaStream) : stop_tracks (stop_tracks m) = stop_tracks m.
Proof.
  unfold stop_tracks. cbn. f_equal. rewrite map_map. reflexivity.
Qed.

Lemma stop_tracks_released (m : MediaStream) : stream_released (Some (stop_tracks m)) = true.
Proof.
  cbn. rewrite forallb_forall. intros tr Hin. apply in_map_iff in Hin.
  destruct Hin as [x [<- _]]. reflexivity.
Qed.

Lemma disconnect_fields (t : GeminiLiveService) :
  disconnect t =
    (Normal tt,
     {| session := option_map (fun s => {| is_open := false; sent := sent s |}) (session t);
        inputAudioContext :=
          option_map (fun c => {| state := closed; started := started c |})
                     (inputAudioContext t);
        outputAudioContext :=
          option_map (fun c => {| state := closed; started := started c |})
                     (outputAudioContext t);
        inputSource := option_map (fun _ => {| outputs := [] |}) (inputSource t);
        processor := option_map (fun _ => {| outputs := [] |}) (processor t);
        nextStartTime := nextStartTime t;
        inputAnalyser := inputAnalyser t;
        outputAnalyser := outputAnalyser t;
        mediaStream :=
          option_map
            (fun m => {| tracks := map (fun tr => {| enabled := enabled tr; live := false |})
                                       (tracks m) |})
            (mediaStream t) |}).
Proof.
  destruct t as [ses ictx octx src proc cursor ian oan ms].
  unfold disconnect. run_eff. cbn. destruct ms as [m|]; reflexivity.
Qed.

(** C8: [disconnect] on a service that never connected returns and leaves it
    as it is; on any service it returns, and the session, the nodes, the
    contexts and the stream that the service held are still the ones it
    holds, the session now closed with what was sent on it, both nodes
    without a connection, both contexts closed with what was started on
    them, and every track of the stream stopped; the cursor and the analysers
    are as before.  So nothing is left open, connected or live, and a second
    [disconnect] returns too and changes nothing. *)
Theorem disconnect_safe :
  disconnect new_service = (Normal tt, new_service) /\
  forall t : GeminiLiveService,
    exists t1,
      disconnect t = (Normal tt, t1) /\
      session t1
        = option_map (fun s => {| is_open := false; sent := sent s |}) (session t) /\
      inputSource t1 = option_map (fun _ => {| outputs := [] |}) (inputSource t) /\
      processor t1 = option_map (fun _ => {| outputs := [] |}) (processor t) /\
      inputAudioContext t1
        = option_map (fun c => {| state := closed; started := started c |})
                     (inputAudioContext t) /\
      outputAudioContext t1
        = option_map (fun c => {| state := closed; started := started c |})
                     (outputAudioContext t) /\
      mediaStream t1
        = option_map
            (fun m => {| tracks := map (fun tr => {| enabled := enabled tr; live := false |})
                                       (tracks m) |})
            (mediaStream t) /\
      nextStartTime t1 = nextStartTime t /\
      inputAnalyser t1 = inputAnalyser t /\
      outputAnalyser t1 = outputAnalyser t /\
      released t1 = true /\
      disconnect t1 = (Normal tt, t1).
Proof.
  split; [reflexivity|].
  intros t. eexists. split; [apply disconnect_fields|].
  do 9 (split; [reflexivity|]).
  destruct t as [ses ictx octx src proc cursor ian oan ms]. split.
  - unfold released. cbn -[stop_tracks stream_released].
    replace (stream_released _) with true.
    + destruct ses, src, proc, ictx, octx; reflexivity.
    + destruct ms as [m|]; [|reflexivity]. symmetry. exact (stop_tracks_released m).
  - rewrite disconnect_fields. cbn. f_equal.
    destruct ses, src, proc, ictx, octx, ms as [m|]; cbn; try reflexivity;
      rewrite map_map; reflexivity.
Qed.

(** C2, as stated, fails: after a rejected handshake the service still
    holds its two audio contexts, running, and after a refused microphone the
    open session as well. *)
Lemma failed_connect_keeps_resources :
  (exists t', connect handshake_rejected new_service = (Throw "handshake rejected", t') /\
              released t' = false /\
              inputAudioContext t' = Some {| state := running; started := [] |}) /\
  (exists t', connect microphone_refused new_service = (Throw "NotAllowedError", t') /\
              released t' = false /\
              session t' = Some {| is_open := true; sent := [] |}).
Proof.
  split; eexists; (split; [reflexivity|split; reflexivity]).
Qed.

(** C2, amended: when [connect] throws, the error is the one of the failing
    step ([resume()], the handshake or [getUserMedia]), and nothing acquired
    before that step is released: both audio contexts are held and not
    closed, and when the failing step is [getUserMedia] so is the open
    session. *)
Theorem connect_failure (env : ConnectEnv) (t t' : GeminiLiveService) (e : string) :
  connect env t = (Throw e, t') ->
  (exists cin cout,
     inputAudioContext t' = Some cin /\ state cin <> closed /\
     outputAudioContext t' = Some cout /\ state cout <> closed) /\
  released t' = false /\
  ((resume_input env = Throw e \/ resume_output env = Throw e \/ live_connect env = Throw e)
     /\ session t' = session t /\ mediaStream t' = mediaStream t
   \/ getUserMedia env = Throw e /\ session t' = Some {| is_open := true; sent := [] |}
      /\ mediaStream t' = mediaStream t).
Proof.
  destruct env as [si so ri ro clk lc gum], t as [ses ictx octx src proc cursor ian oan ms].
  unfold connect, setupMicrophone. run_eff. cbn.
  destruct si, so; cbn;
    repeat match goal with
           | |- context [match ?c with Normal _ => _ | Throw _ => _ end] =>
               destruct c as [[]|?]; cbn
           | |- context [let (_, _) := match ?c with Normal _ => _ | Throw _ => _ end in _] =>
               destruct c as [?|?]; cbn
           end;
    intros H; inversion H; subst; clear H;
    (split; [eexists _, _; repeat split; try reflexivity; discriminate|]);
    (split; [unfold released; cbn; rewrite ?andb_false_r; reflexivity|]);
    cbn; auto 10.
Qed.

(** ** The theorems above at sample runs *)

Lemma queueAudio_schedules_witness :
  exists t',
    queueAudio at_five "AAA=" connected_service = (Normal tt, t') /\
    nextStartTime t'
      = add (of_Z 5)
            (duration {| channelData := [S754_zero false]; sampleRate := of_Z 24000 |}).
Proof.
  destruct (@queueAudio_schedules at_five "AAA=" connected_service
              {| state := running; started := [] |}
              {| fftSize := 256; analyser_outputs := [] |}
              {| channelData := [S754_zero false]; sampleRate := of_Z 24000 |}
              eq_refl eq_refl eq_refl)
    as (t' & ctx' & at_ & Hrun & _ & _ & Hcursor & Hsnap & _).
  exists t'. split; [exact Hrun|]. rewrite Hcursor, (Hsnap eq_refl). reflexivity.
Defined.

Lemma queueAudio_malformed_chunk_witness :
  exists t',
    queueAudio at_five "!" connected_service = (Normal tt, t') /\
    nextStartTime t' = nextStartTime connected_service.
Proof.
  destruct (@queueAudio_malformed_chunk at_five "!" "InvalidCharacterError"
              connected_service eq_refl)
    as (t' & Hrun & Hcursor & _).
  exists t'. split; [exact Hrun|exact Hcursor].
Defined.

Lemma handleMessage_tool_responses_witness :
  exists t' s' rs,
    handleMessage counting_callbacks at_five four_calls_message (connected_service, 0%nat)
      = (Normal tt, (t', 3%nat)) /\
    session t' = Some s' /\
    sent s' = map (fun r => ToolResponse [r]) rs /\
    map fr_response rs
      = [ [("status", "Aadhar Saved. Proceed to PAN.")];
          [("error", "Failed to execute tool")];
          [("status", "MATCH")];
          [("result", "ok")] ].
Proof.
  destruct (@handleMessage_tool_responses nat counting_callbacks at_five four_calls_message
              four_calls connected_service 0%nat {| is_open := true; sent := [] |}
              eq_refl eq_refl)
    as (t' & w' & s' & rs & st & Hrun & Hses & Hsent & Hlen & _ & H0 & Hn & Hall).
  destruct rs as [|r0 [|r1 [|r2 [|r3 [|r4 rest]]]]]; try discriminate Hlen.
  destruct (Hall 0%nat _ r0 eq_refl eq_refl) as (A0 & _).
  destruct (Hall 1%nat _ r1 eq_refl eq_refl) as (_ & A1 & _).
  destruct (Hall 2%nat _ r2 eq_refl eq_refl) as (_ & _ & A2 & _).
  destruct (Hall 3%nat _ r3 eq_refl eq_refl) as (_ & _ & _ & _ & A3).
  specialize (A0 eq_refl). specialize (A1 eq_refl). specialize (A2 eq_refl).
  specialize (A3 eq_refl). cbn in A0, A1, A2, A3.
  injection A0 as R0 S1. injection A1 as R1 S2. injection A2 as R2 S3.
  injection A3 as R3 S4.
  exists t', s', [r0; r1; r2; r3]. split.
  - rewrite Hrun. f_equal. f_equal. rewrite <- Hn. cbn [functionCalls four_calls List.length].
    rewrite S4, S3, S2, S1, H0. reflexivity.
  - split; [exact Hses|]. split; [exact Hsent|]. cbn [map]. now rewrite R0, R1, R2, R3.
Defined.

Lemma connect_failure_witness :
  released (snd (connect handshake_rejected new_service)) = false.
Proof.
  exact (proj1 (proj2 (@connect_failure handshake_rejected new_service
                         (snd (connect handshake_rejected new_service))
                         "handshake rejected" eq_refl))).
Defined.

(** ** More on the life cycle, the scheduler and the tool calls *)

Lemma disconnect_releases (t : GeminiLiveService) :
  fst (disconnect t) = Normal tt /\ released (snd (disconnect t)) = true.
Proof.
  destruct t as [ses ictx octx src proc cursor ian oan ms].
  unfold disconnect. run_eff. cbn -[stop_tracks].
  destruct ms as [m|]; cbn -[stop_tracks stream_released]; (split; [reflexivity|]);
    unfold released; cbn -[stop_tracks stream_released];
    rewrite ?stop_tracks_released;
    destruct ses, src, proc, ictx, octx; reflexivity.
Qed.

Lemma connect_throws_unreleased (env : ConnectEnv) (t t' : GeminiLiveService) (e : string) :
  connect env t = (Throw e, t') ->
  released t' = false /\ mediaStream t' = mediaStream t /\
  (resume_input env = Throw e \/ resume_output env = Throw e \/
   live_connect env = Throw e \/ getUserMedia env = Throw e).
Proof.
  destruct env as [si so ri ro clk lc gum], t as [ses ictx octx src proc cursor ian oan ms].
  unfold connect, setupMicrophone. run_eff. cbn.
  destruct si, so; cbn;
    repeat match goal with
           | |- context [match ?c with Normal _ => _ | Throw _ => _ end] =>
               destruct c as [[]|?]; cbn
           | |- context [let (_, _) := match ?c with Normal _ => _ | Throw _ => _ end in _] =>
               destruct c as [?|?]; cbn
           end;
    intros H; inversion H; subst; clear H;
    (split; [unfold released; cbn; rewrite ?andb_false_r; reflexivity|]);
    cbn; auto 10.
Qed.

Lemma connect_normal (env : ConnectEnv) (t t' : GeminiLiveService) :
  connect env t = (Normal tt, t') ->
  (input_created_suspended env = true -> resume_input env = Normal tt) /\
  (output_created_suspended env = true -> resume_output env = Normal tt) /\
  live_connect env = Normal tt /\
  exists stream,
    getUserMedia env = Normal stream /\ t' = Controls.connected (clock env) stream.
Proof.
  destruct env as [si so ri ro clk lc gum], t as [ses ictx octx src proc cursor ian oan ms].
  unfold connect, setupMicrophone, Controls.connected. run_eff. cbn.
  destruct si, so; cbn;
    repeat match goal with
           | |- context [match ?c with Normal _ => _ | Throw _ => _ end] =>
               destruct c as [[]|?]; cbn
           | |- context [let (_, _) := match ?c with Normal _ => _ | Throw _ => _ end in _] =>
               destruct c as [?|?]; cbn
           end;
    intros H; inversion H; subst; clear H;
    repeat split; try reflexivity; try discriminate; eexists; split; reflexivity.
Qed.

(** [connect] returns exactly when every step it awaits succeeds, and then
    it leaves the service with an open session on which nothing was sent,
    two running contexts on which nothing was started, the cursor at the
    output clock, and the microphone source connected to the analyser and to
    the processor.  Nothing of what the service held before is left. *)
Theorem connect_success (env : ConnectEnv) (t t' : GeminiLiveService) :
  connect env t = (Normal tt, t') <->
  (input_created_suspended env = true -> resume_input env = Normal tt) /\
  (output_created_suspended env = true -> resume_output env = Normal tt) /\
  live_connect env = Normal tt /\
  exists stream,
    getUserMedia env = Normal stream /\ t' = Controls.connected (clock env) stream.
Proof.
  split; [apply connect_normal|].
  destruct env as [si so ri ro clk lc gum], t as [ses ictx octx src proc cursor ian oan ms].
  unfold connect, setupMicrophone, Controls.connected. run_eff. cbn.
  intros (Hi & Ho & -> & stream & -> & ->).
  destruct si; [rewrite (Hi eq_refl)|]; (destruct so; [rewrite (Ho eq_refl)|]); reflexivity.
Qed.

(** Two chunks that decode, the second arriving while the cursor is not
    behind the clock: the second buffer is started at the very time the first
    one ends, and the cursor ends at the sum of both durations after the start
    of the first. *)
Theorem queueAudio_back_to_back (env1 env2 : PlaybackEnv) (d1 d2 : string)
  (t : GeminiLiveService) (ctx : AudioContext) (an : AnalyserNode) (b1 b2 : AudioBuffer) :
  outputAudioContext t = Some ctx -> outputAnalyser t = Some an ->
  decode_chunk d1 = Normal b1 -> decode_chunk d2 = Normal b2 ->
  let at1 := scheduled_at (nextStartTime t) (currentTime env1) in
  ltb (add at1 (duration b1)) (currentTime env2) = false ->
  exists t2 ctx2,
    queue_all [(env1, d1); (env2, d2)] t = (Normal tt, t2) /\
    outputAudioContext t2 = Some ctx2 /\
    started ctx2 = (started ctx ++ [(at1, b1); (add at1 (duration b1), b2)])%list /\
    nextStartTime t2 = add (add at1 (duration b1)) (duration b2).
Proof.
  intros Hctx Han H1 H2 at1 Hclock.
  unfold queue_all. cbn [for_each fst snd]. unfold bind at 1.
  rewrite (queueAudio_decoded env1 _ _ Hctx Han H1). unfold bind at 1.
  erewrite (@queueAudio_decoded env2 d2 _ _ _ b2); [|reflexivity|reflexivity|exact H2].
  cbn [nextStartTime set_nextStartTime set_outputAudioContext set_outputAnalyser].
  fold at1. unfold scheduled_at at 1 2. rewrite Hclock.
  eexists _, _. split; [reflexivity|]. split; [reflexivity|]. split; [|reflexivity].
  cbn [started start_source]. rewrite started_after_resume.
  cbn [started start_source]. rewrite started_after_resume.
  now rewrite <- app_assoc.
Qed.

(** A tool call received while no session is held: the handlers run as
    they do with a session, in order; no response is sent, since there is
    nothing to send it on, and no session appears. *)
Theorem handleMessage_without_session (W : Type) (callbacks : ToolCallbacks W)
  (env : PlaybackEnv) (message : LiveServerMessage) (tc : LiveServerToolCall)
  (t : GeminiLiveService) (w : W) :
  toolCall message = Some tc -> session t = None ->
  exists t',
    handleMessage callbacks env message (t, w)
      = (Normal tt, (t', app_after callbacks (functionCalls tc) w)) /\
    session t' = None /\
    (audioData message = None -> t' = t).
Proof.
  intros Htc Hs. unfold handleMessage. rewrite Htc. unfold bind at 1.
  set (audio := match audioData message with
                | Some d => if String.eqb d "" then ret tt else on_service (queueAudio env d)
                | None => ret tt
                end).
  assert (Ha : exists t1, audio (t, w) = (Normal tt, (t1, w)) /\ session t1 = None
                          /\ (audioData message = None -> t1 = t)).
  { subst audio. destruct (audioData message) as [d|]; [destruct (String.eqb d "")|];
      try (exists t; repeat split; [assumption|reflexivity]);
      try (exists t; repeat split; assumption).
    unfold on_service. cbn [fst snd].
    pose proof (queueAudio_returns env d t) as R.
    pose proof (queueAudio_session env d t) as S.
    destruct (queueAudio env d t) as [r t1]. cbn in R, S. subst r.
    exists t1. split; [reflexivity|]. split; [congruence|discriminate]. }
  destruct Ha as (t1 & -> & Hs1 & Hsame).
  assert (Hloop : forall calls w0,
            for_each (handle_call callbacks) calls (t1, w0)
            = (Normal tt, (t1, app_after callbacks calls w0))).
  { induction calls as [|call r IH]; intros w0; [reflexivity|].
    cbn [for_each]. unfold bind at 1. unfold handle_call at 1.
    unfold bind at 1. unfold on_app at 1. cbn [snd fst].
    rewrite responseResult_returns. cbn [fst snd].
    unfold on_service, sendToolResponse, modify. cbn [fst snd].
    rewrite Hs1. cbn [option_map].
    replace (set_session None t1) with t1
      by (destruct t1; cbn in Hs1; subst; reflexivity).
    rewrite IH. cbn [app_after fold_left]. now rewrite responseResult_returns. }
  exists t1. split; [apply Hloop|]. split; assumption.
Qed.

(** ** The chunks [queueAudio] takes *)

Lemma int16_of_bytes_range (lo hi : byte) :
  (-32768 <= int16_of_bytes lo hi <= 32767)%Z.
Proof.
  unfold int16_of_bytes.
  pose proof (Byte.to_N_bounded lo). pose proof (Byte.to_N_bounded hi).
  destruct (Z.ltb_spec (Z.of_N (Byte.to_N lo) + 256 * Z.of_N (Byte.to_N hi)) 32768); lia.
Qed.

Lemma Int16Array_of_bytes (n : nat) :
  forall b : list byte,
    (List.length b <= n)%nat ->
    if Nat.even (List.length b) then
      exists l, Int16Array_of b = Normal l /\
                List.length l = (List.length b / 2)%nat /\
                Forall (fun k => -32768 <= k <= 32767)%Z l
    else Int16Array_of b = Throw "RangeError".
Proof.
  induction n as [|n IH]; intros b Hn.
  - destruct b; [|cbn in Hn; lia]. exists []. repeat split. constructor.
  - destruct b as [|lo [|hi r]].
    + exists []. repeat split. constructor.
    + reflexivity.
    + assert (Hr : (List.length r <= n)%nat) by (cbn in Hn; lia).
      specialize (IH r Hr).
      change (Nat.even (List.length (lo :: hi :: r))) with (Nat.even (List.length r)).
      cbn [Int16Array_of].
      destruct (Nat.even (List.length r)).
      * destruct IH as (l & -> & Hl & Hf). eexists. split; [reflexivity|]. split.
        -- cbn [List.length]. rewrite Hl.
           change (S (S (List.length r))) with (2 + List.length r)%nat.
           replace (2 + List.length r)%nat with (List.length r + 1 * 2)%nat by lia.
           rewrite Nat.div_add by lia. lia.
        -- constructor; [apply int16_of_bytes_range|exact Hf].
      * now rewrite IH.
Qed.

(** What becomes of the Base64 text of a block of bytes in the decoder of
    [queueAudio]: an odd number of bytes is a [RangeError] and no bytes at all
    a [NotSupportedError], so that the chunk is dropped; otherwise the buffer
    has one sample for every two bytes, at 24000 Hz, each sample a binary32
    value of [-1 .. 1]. *)
Theorem decode_chunk_bytes (b : list byte) :
  (Nat.even (List.length b) = false ->
     decode_chunk (Transport.arrayBufferToBase64 b) = Throw "RangeError") /\
  (b = [] -> decode_chunk (Transport.arrayBufferToBase64 b) = Throw "NotSupportedError") /\
  (Nat.even (List.length b) = true -> b <> [] ->
     exists buf,
       decode_chunk (Transport.arrayBufferToBase64 b) = Normal buf /\
       List.length (channelData buf) = (List.length b / 2)%nat /\
       sampleRate buf = of_Z 24000 /\
       Forall (fun x => valid_binary 24 128 x = true /\ Codec.in_unit_interval x = true)
              (channelData buf)).
Proof.
  unfold decode_chunk. rewrite TransportFacts.decode_encode.
  pose proof (@Int16Array_of_bytes (List.length b) b (Nat.le_refl _)) as H.
  split; [|split].
  - intros E. rewrite E in H. now rewrite H.
  - intros ->. reflexivity.
  - intros E Hb. rewrite E in H. destruct H as (l & -> & Hl & Hf).
    destruct l as [|k l].
    { destruct b as [|x [|y r]]; [contradiction|discriminate E|].
      cbn [List.length] in Hl.
      change (S (S (List.length r))) with (2 + List.length r)%nat in Hl.
      replace (2 + List.length r)%nat with (List.length r + 1 * 2)%nat in Hl by lia.
      rewrite Nat.div_add in Hl by lia. lia. }
    eexists. split; [reflexivity|]. cbn [channelData sampleRate].
    split; [unfold Codec.int16ToFloat32; now rewrite length_map|].
    split; [reflexivity|].
    unfold Codec.int16ToFloat32. apply Forall_map.
    revert Hf. apply Forall_impl. intros z Hz. now apply CodecFacts.decode_sample_in_unit.
Qed.

(** ** The theorems above at sample runs, continued *)

Lemma connect_success_witness :
  connect all_granted new_service = (Normal tt, Controls.connected (of_Z 3) a_microphone).
Proof.
  apply connect_success. repeat split. eexists. split; reflexivity.
Defined.

Lemma queueAudio_back_to_back_witness :
  exists t2, queue_all [(at_five, "AAA="); (at_five, "AAA=")] connected_service = (Normal tt, t2).
Proof.
  destruct (@queueAudio_back_to_back at_five at_five "AAA=" "AAA=" connected_service
              {| state := running; started := [] |}
              {| fftSize := 256; analyser_outputs := [] |}
              {| channelData := [S754_zero false]; sampleRate := of_Z 24000 |}
              {| channelData := [S754_zero false]; sampleRate := of_Z 24000 |}
              eq_refl eq_refl eq_refl eq_refl eq_refl)
    as (t2 & ctx2 & Hrun & _).
  exists t2. exact Hrun.
Defined.

Lemma decode_chunk_bytes_witness :
  decode_chunk (Transport.arrayBufferToBase64 [x01]) = Throw "RangeError".
Proof.
  exact (proj1 (decode_chunk_bytes [x01]) eq_refl).
Defined.

Lemma handleMessage_without_session_witness :
  exists t',
    handleMessage counting_callbacks at_five four_calls_message (new_service, 0%nat)
      = (Normal tt, (t', 3%nat)).
Proof.
  destruct (@handleMessage_without_session nat counting_callbacks at_five four_calls_message
              four_calls new_service 0%nat eq_refl eq_refl) as (t' & Hrun & _).
  exists t'. exact Hrun.
Defined.

End ServiceFacts.

(* ================================================================== *)
(** * Facts: the capture callback *)
(* ================================================================== *)

Module CaptureFacts.
Import JS Service Capture TransportFacts CodecFacts ServiceFacts.
Local Open Scope string_scope.

(** ** The bytes of an [Int16Array] *)

Lemma byte_of_Z_value (z : Z) : Z.of_N (Byte.to_N (byte_of_Z z)) = (z mod 256)%Z.
Proof.
  unfold byte_of_Z. pose proof (Z.mod_pos_bound z 256 eq_refl) as Hb.
  destruct (Byte.of_N (Z.to_N (z mod 256))) as [b|] eqn:E.
  - apply Byte.to_of_N in E. rewrite E. apply Z2N.id. lia.
  - apply Byte.of_N_None_iff in E. lia.
Qed.

Lemma int16_of_bytes_of_int16 (k : Z) :
  (-32768 <= k <= 32767)%Z ->
  int16_of_bytes (byte_of_Z k) (byte_of_Z (k / 256)) = k.
Proof.
  intros Hk. unfold int16_of_bytes. rewrite !byte_of_Z_value.
  rewrite <- (Z.rem_mul_r k 256 256) by lia. change (256 * 256)%Z with 65536%Z.
  destruct (Z.ltb_spec (k mod 65536) 32768) as [H|H].
  - destruct (Z.le_gt_cases 0 k) as [Hs|Hs].
    + apply Z.mod_small. lia.
    + replace k with (k + 65536 - 1 * 65536)%Z in H at 1 by ring.
      replace (k + 65536 - 1 * 65536)%Z with (k + 65536 + (-1) * 65536)%Z in H by ring.
      rewrite Z.mod_add, Z.mod_small in H by lia. lia.
  - destruct (Z.le_gt_cases 0 k) as [Hs|Hs].
    + rewrite Z.mod_small in H by lia. lia.
    + replace (k mod 65536)%Z with ((k + 65536 + (-1) * 65536) mod 65536)%Z
        by (f_equal; ring).
      rewrite Z.mod_add, Z.mod_small by lia. ring.
Qed.

Lemma Int16Array_of_buffer (pcmData : list Z) :
  Forall (fun k => -32768 <= k <= 32767)%Z pcmData ->
  Int16Array_of (Int16Array_buffer pcmData) = Normal pcmData.
Proof.
  induction 1 as [|k r Hk _ IH]; [reflexivity|].
  unfold Int16Array_buffer in *. cbn [flat_map bytes_of_int16 app Int16Array_of].
  now rewrite IH, int16_of_bytes_of_int16.
Qed.

Lemma Int16Array_buffer_length (pcmData : list Z) :
  List.length (Int16Array_buffer pcmData) = (2 * List.length pcmData)%nat.
Proof.
  unfold Int16Array_buffer. induction pcmData as [|k r IH]; cbn in *; lia.
Qed.

(** ** [onaudioprocess] *)

(** On a block that the resampler takes, while a session is held, the
    callback sends one realtime input and nothing else changes; its type is
    [audio/pcm;rate=16000], and its data are Base64 text of 4 characters for
    every 3 bytes begun, two bytes a sample, which decodes to the codes
    [float32ToInt16] gives for the resampled block. *)
Theorem onaudioprocess_sends (sampleRate : number) (inputData resampled : list float32)
  (t : GeminiLiveService) (ctx : AudioContext) (s : LiveSession) :
  inputAudioContext t = Some ctx -> session t = Some s ->
  Resampler.downsampleTo16000 inputData sampleRate = Some resampled ->
  exists payload,
    onaudioprocess sampleRate inputData t
      = (Normal tt,
         set_session (Some (send (RealtimeInput "audio/pcm;rate=16000" payload) s)) t) /\
    String.length payload = (4 * ((2 * List.length resampled + 2) / 3))%nat /\
    option_map Int16Array_of (Transport.base64ToArrayBuffer payload)
      = Some (Normal (Codec.float32ToInt16 resampled)).
Proof.
  intros Hctx Hs Hr. eexists. split; [|split].
  - unfold onaudioprocess. run_eff. rewrite Hctx, Hr. cbv zeta. rewrite Hs. reflexivity.
  - rewrite arrayBufferToBase64_length, Int16Array_buffer_length.
    unfold Codec.float32ToInt16. now rewrite length_map.
  - rewrite decode_encode. cbn [option_map]. f_equal.
    apply Int16Array_of_buffer, float32ToInt16_range.
Qed.

(** Without a session the callback does the same work and sends nothing:
    the service is left as it was.  It throws in two cases only, without an
    input context and when the resampler cannot allocate its result, and
    then too the service is left as it was. *)
Theorem onaudioprocess_silent (sampleRate : number) (inputData : list float32)
  (t : GeminiLiveService) :
  (session t = None -> snd (onaudioprocess sampleRate inputData t) = t) /\
  (forall e, fst (onaudioprocess sampleRate inputData t) = Throw e ->
     snd (onaudioprocess sampleRate inputData t) = t /\
     (inputAudioContext t = None \/
      Resampler.downsampleTo16000 inputData sampleRate = None)).
Proof.
  unfold onaudioprocess. run_eff.
  destruct (inputAudioContext t) as [ctx|];
    [destruct (Resampler.downsampleTo16000 inputData sampleRate) as [r|]|];
    cbn; split; auto; try discriminate.
  intros Hs. rewrite Hs. destruct t; cbn in *; subst; reflexivity.
Qed.

(** ** The theorems above at sample runs *)

Lemma onaudioprocess_sends_witness :
  exists payload,
    onaudioprocess (of_Z 16000) [S754_zero false] connected_service
      = (Normal tt,
         set_session (Some (send (RealtimeInput "audio/pcm;rate=16000" payload)
                                 {| is_open := true; sent := [] |})) connected_service).
Proof.
  destruct (@onaudioprocess_sends (of_Z 16000) [S754_zero false] [S754_zero false]
              connected_service {| state := running; started := [] |}
              {| is_open := true; sent := [] |} eq_refl eq_refl eq_refl)
    as (payload & Hrun & _).
  exists payload. exact Hrun.
Defined.

Lemma onaudioprocess_silent_witness :
  snd (onaudioprocess (of_Z 16000) [S754_zero false] new_service) = new_service.
Proof.
  exact (proj1 (onaudioprocess_silent (of_Z 16000) [S754_zero false] new_service) eq_refl).
Defined.

End CaptureFacts.

(* ================================================================== *)
(** * Facts: the controls of the service *)
(* ================================================================== *)

Module ControlsFacts.
Import JS Service Controls ServiceFacts.
Local Open Scope string_scope.

Lemma all_enabled_set (v : bool) (l : list MediaStreamTrack) :
  forallb (fun track => Bool.eqb (enabled track) v) (map (set_enabled v) l) = true.
Proof.
  induction l as [|x r IH]; cbn; [reflexivity|]. rewrite IH. now destruct v.
Qed.

(** [setMicMuted] returns; afterwards every track has [enabled] at the
    negation of [muted], no track was stopped, added or removed, and no other
    field of the service has changed; of two calls in a row only the
    second counts. *)
Theorem setMicMuted_tracks (muted : bool) (t : GeminiLiveService) :
  exists t',
    setMicMuted muted t = (Normal tt, t') /\
    all_enabled (negb muted) (mediaStream t') = true /\
    option_map (fun m => map live (tracks m)) (mediaStream t')
      = option_map (fun m => map live (tracks m)) (mediaStream t) /\
    set_mediaStream (mediaStream t) t' = t /\
    forall again, setMicMuted again t' = setMicMuted again t.
Proof.
  destruct t as [ses ictx octx src proc cursor ian oan ms].
  unfold setMicMuted. run_eff. cbn.
  destruct ms as [[l]|]; eexists; (split; [reflexivity|]); cbn.
  - split; [apply all_enabled_set|]. split.
    + f_equal. rewrite map_map. reflexivity.
    + split; [reflexivity|]. intros again. unfold set_mediaStream. cbn.
      rewrite map_map. reflexivity.
  - repeat split.
Qed.

(** [setOutputPaused] touches the state of the output context and nothing
    else: the cursor and the buffers started are as before, however the
    promise is settled.  It throws only when the platform rejects, and then
    nothing at all has changed. *)
Theorem setOutputPaused_keeps_schedule (settled : completion unit) (paused : bool)
  (t : GeminiLiveService) :
  same_playback (snd (setOutputPaused settled paused t)) t /\
  (forall e, fst (setOutputPaused settled paused t) = Throw e ->
     settled = Throw e /\ snd (setOutputPaused settled paused t) = t) /\
  (outputAudioContext t = None -> setOutputPaused settled paused t = (Normal tt, t)).
Proof.
  destruct t as [ses ictx octx src proc cursor ian oan ms].
  unfold setOutputPaused, same_playback. run_eff. cbn.
  destruct octx as [c|]; [|repeat split; discriminate].
  destruct paused, settled as [[]|e']; cbn;
    (split; [repeat split|]);
    (split; [intros e0 H; try discriminate H; inversion H; subst; split; reflexivity
            |intros H; discriminate H]).
Qed.

(** A pause does not outlast the next chunk: once [setOutputPaused(true)]
    has suspended the output context, the first chunk that arrives has
    [queueAudio] resume it, and when the platform grants that, the context is
    running again, decodable chunk or not. *)
Theorem pause_undone_by_next_chunk (env : PlaybackEnv) (base64Data : string)
  (t : GeminiLiveService) (ctx : AudioContext) (an : AnalyserNode) :
  outputAudioContext t = Some ctx -> outputAnalyser t = Some an ->
  resume env = Normal tt ->
  exists t1 t2 ctx1 ctx2,
    setOutputPaused (Normal tt) true t = (Normal tt, t1) /\
    outputAudioContext t1 = Some ctx1 /\ state ctx1 = suspended /\
    queueAudio env base64Data t1 = (Normal tt, t2) /\
    outputAudioContext t2 = Some ctx2 /\ state ctx2 = running.
Proof.
  intros Hctx Han Hres.
  assert (H1 : setOutputPaused (Normal tt) true t
               = (Normal tt, set_outputAudioContext (Some (with_state suspended ctx)) t)).
  { unfold setOutputPaused. run_eff. rewrite Hctx. cbn. now rewrite Hctx. }
  rewrite H1.
  set (t1 := set_outputAudioContext (Some (with_state suspended ctx)) t).
  assert (Hc1 : outputAudioContext t1 = Some (with_state suspended ctx)) by reflexivity.
  assert (Ha1 : outputAnalyser t1 = Some an) by exact Han.
  destruct (decode_chunk base64Data) as [buf|e] eqn:Hd.
  - eexists t1, _, _, _. split; [reflexivity|]. split; [exact Hc1|]. split; [reflexivity|].
    split; [exact (queueAudio_decoded env _ _ Hc1 Ha1 Hd)|].
    split; [reflexivity|]. unfold after_resume. cbn. now rewrite Hres.
  - eexists t1, _, _, _. split; [reflexivity|]. split; [exact Hc1|]. split; [reflexivity|].
    split; [exact (queueAudio_dropped env _ _ Hc1 Ha1 Hd)|].
    split; [reflexivity|]. unfold after_resume. cbn. now rewrite Hres.
Qed.

(** ** The theorems above at sample runs *)

Lemma setOutputPaused_keeps_schedule_witness :
  setOutputPaused (Throw "InvalidStateError") true new_service = (Normal tt, new_service).
Proof.
  exact (proj2 (proj2 (setOutputPaused_keeps_schedule (Throw "InvalidStateError") true
                         new_service)) eq_refl).
Defined.

Lemma pause_undone_by_next_chunk_witness :
  exists t1 t2 ctx2,
    setOutputPaused (Normal tt) true connected_service = (Normal tt, t1) /\
    queueAudio at_five "!" t1 = (Normal tt, t2) /\
    outputAudioContext t2 = Some ctx2 /\ state ctx2 = running.
Proof.
  destruct (@pause_undone_by_next_chunk at_five "!" connected_service
              {| state := running; started := [] |}
              {| fftSize := 256; analyser_outputs := [] |} eq_refl eq_refl eq_refl)
    as (t1 & t2 & ctx1 & ctx2 & H1 & _ & _ & H2 & H3 & H4).
  exists t1, t2, ctx2. repeat split; assumption.
Defined.

End ControlsFacts.

(* ================================================================== *)
(** * Facts: the tool declarations and the application *)
(* ================================================================== *)

Module AppFacts.
Import Service Tools App ServiceFacts.
Local Open Scope string_scope.

(** ** The tools declared and the tools dispatched *)

Lemma declared_recognised (n : string) :
  In n (map fd_name functionDeclarations) <-> recognised n = true.
Proof.
  unfold recognised. rewrite existsb_exists. cbn [map functionDeclarations fd_name
    saveAadharTool savePanTool verifyDetailsTool createDigilockerTool].
  split.
  - intros H. exists n. split; [|apply String.eqb_refl].
    cbn in H. cbn. tauto.
  - intros [x [Hin Hx]]. apply String.eqb_eq in Hx. subst x. cbn in Hin. cbn.
    repeat match goal with H : _ \/ _ |- _ => destruct H as [H|H] end;
      try contradiction; subst; cbn; tauto.
Qed.

(** The names [handleMessage] dispatches on are those of the declarations
    given to the model.  An invocation of a declared tool runs the handler
    of that tool on its arguments: it is answered with the status of the tool
    when the handler returns and with the error payload when the handler
    throws, the application being left as the handler left it.  Only an
    invocation of an undeclared name is answered with the generic result, no
    handler having run. *)
Theorem declared_tools_dispatched (W : Type) (callbacks : ToolCallbacks W)
  (call : FunctionCall) (w : W) :
  (name call = fd_name saveAadharTool ->
     responseResult callbacks call w =
       match onSaveAadhar callbacks (args call) w with
       | (Normal _, w1) => (Normal [("status", "Aadhar Saved. Proceed to PAN.")], w1)
       | (Throw _, w1) => (Normal error_payload, w1)
       end) /\
  (name call = fd_name savePanTool ->
     responseResult callbacks call w =
       match onSavePan callbacks (args call) w with
       | (Normal _, w1) => (Normal [("status", "PAN Saved. Proceed to Verify.")], w1)
       | (Throw _, w1) => (Normal error_payload, w1)
       end) /\
  (name call = fd_name verifyDetailsTool ->
     responseResult callbacks call w =
       match onVerifyDetails callbacks (args call) w with
       | (Normal result, w1) => (Normal [("status", result)], w1)
       | (Throw _, w1) => (Normal error_payload, w1)
       end) /\
  (name call = fd_name createDigilockerTool ->
     responseResult callbacks call w =
       match onCreateDigilocker callbacks (args call) w with
       | (Normal _, w1) => (Normal [("status", "Account Created.")], w1)
       | (Throw _, w1) => (Normal error_payload, w1)
       end) /\
  (In (name call) (map fd_name functionDeclarations) <->
     name call = fd_name saveAadharTool \/ name call = fd_name savePanTool \/
     name call = fd_name verifyDetailsTool \/ name call = fd_name createDigilockerTool) /\
  (In (name call) (map fd_name functionDeclarations) ->
     exists j, fst (responseResult callbacks call w) = Normal j /\
               (j = error_payload \/ exists v, j = [("status", v)])) /\
  (~ In (name call) (map fd_name functionDeclarations) ->
     responseResult callbacks call w = (Normal generic_ok, w)).
Proof.
  destruct (@responseResult_by_name W callbacks call w) as (H1 & H2 & H3 & H4 & H5).
  split; [exact H1|]. split; [exact H2|]. split; [exact H3|]. split; [exact H4|].
  assert (Hin : In (name call) (map fd_name functionDeclarations) <->
                name call = fd_name saveAadharTool \/ name call = fd_name savePanTool \/
                name call = fd_name verifyDetailsTool \/
                name call = fd_name createDigilockerTool).
  { cbn. split.
    - intros [H|[H|[H|[H|[]]]]]; auto.
    - intros [H|[H|[H|H]]]; auto 6. }
  split; [exact Hin|]. split.
  - intros H. apply Hin in H. destruct H as [E|[E|[E|E]]].
    + rewrite (H1 E).
      destruct (onSaveAadhar callbacks (args call) w) as [[u|e] w1]; cbn; eauto.
    + rewrite (H2 E).
      destruct (onSavePan callbacks (args call) w) as [[u|e] w1]; cbn; eauto.
    + rewrite (H3 E).
      destruct (onVerifyDetails callbacks (args call) w) as [[u|e] w1]; cbn; eauto.
    + rewrite (H4 E).
      destruct (onCreateDigilocker callbacks (args call) w) as [[u|e] w1]; cbn; eauto.
  - intros H. rewrite declared_recognised in H. apply not_true_is_false in H.
    exact (H5 H).
Qed.

(** ** The handlers of the application *)

(** The document a call carries. *)
Lemma dispatch_app (call : FunctionCall) (a : AppState) :
  dispatch callbacks call a =
    if name call =? "saveAadhar" then
      (Normal [("status", "Aadhar Saved. Proceed to PAN.")],
       snd (handleSaveAadhar (args call) a))
    else if name call =? "savePan" then
      (Normal [("status", "PAN Saved. Proceed to Verify.")],
       snd (handleSavePan (args call) a))
    else if name call =? "verifyDetails" then
      (Normal [("status", "MATCH")], snd (handleVerifyDetails (args call) a))
    else if name call =? "createDigilocker" then
      (Normal [("status", "Account Created.")],
       snd (handleCreateDigilocker (args call) a))
    else (Normal generic_ok, a).
Proof.
  unfold dispatch.
  destruct (name call =? "saveAadhar"); [reflexivity|].
  destruct (name call =? "savePan"); [reflexivity|].
  destruct (name call =? "verifyDetails"); [reflexivity|].
  destruct (name call =? "createDigilocker"); reflexivity.
Qed.

(** With the handlers of the application no invocation is answered with
    the error payload, since none of them throws; the phase an invocation
    leaves depends on its name alone, not on the phase it finds, and the
    connection and playback flags are left alone. *)
Theorem app_handlers_set_phase (call : FunctionCall) (a : AppState) :
  exists j a',
    responseResult callbacks call a = (Normal j, a') /\
    j <> error_payload /\
    (name call = "saveAadhar" -> phase a' = PAN) /\
    (name call = "savePan" -> phase a' = VERIFY) /\
    (name call = "verifyDetails" -> phase a' = DIGILOCKER) /\
    (name call = "createDigilocker" -> phase a' = COMPLETE) /\
    (recognised (name call) = false -> a' = a) /\
    isConnected a' = isConnected a /\ isAudioPlaying a' = isAudioPlaying a.
Proof.
  rewrite responseResult_returns, dispatch_app. unfold recognised. cbn [existsb].
  destruct (name call =? "saveAadhar") eqn:E1;
    [|destruct (name call =? "savePan") eqn:E2;
      [|destruct (name call =? "verifyDetails") eqn:E3;
        [|destruct (name call =? "createDigilocker") eqn:E4]]];
    rewrite ?String.eqb_eq, ?String.eqb_neq in *;
    eexists _, _; (split; [reflexivity|]); (split; [discriminate|]); cbn;
    repeat split; try reflexivity; intros H; try discriminate H;
    try (rewrite H in *; discriminate); try contradiction; try congruence.
Qed.

(** [verifyDetails] answers MATCH and records it whatever the documents
    stored are, none at all included; no invocation is ever answered
    MISMATCH, and none makes the status MISMATCH. *)
Theorem verification_always_matches (call : FunctionCall) (a : AppState) :
  (name call = "verifyDetails" ->
     fst (responseResult callbacks call a) = Normal [("status", "MATCH")] /\
     verification (snd (responseResult callbacks call a)) = MATCH /\
     aadhar (snd (responseResult callbacks call a)) = aadhar a /\
     pan (snd (responseResult callbacks call a)) = pan a) /\
  fst (responseResult callbacks call a) <> Normal [("status", status_value MISMATCH)] /\
  (verification a <> MISMATCH ->
     verification (snd (responseResult callbacks call a)) <> MISMATCH).
Proof.
  rewrite responseResult_returns, dispatch_app.
  destruct (name call =? "saveAadhar") eqn:E1;
    [|destruct (name call =? "savePan") eqn:E2;
      [|destruct (name call =? "verifyDetails") eqn:E3;
        [|destruct (name call =? "createDigilocker") eqn:E4]]];
    rewrite ?String.eqb_eq, ?String.eqb_neq in *; cbn;
    (split; [intros H; try (rewrite H in *; discriminate); try contradiction;
             repeat split|]);
    (split; [discriminate|]); try (intros H; exact H); intros _; discriminate.
Qed.

(** The four tools invoked in the order of the flow, from any state of the
    application and with any arguments, while a session is held: four
    responses are sent, each a status, the third being MATCH, and the
    application ends in the phase COMPLETE with both documents as given, the
    status MATCH and the account created. *)
Theorem scripted_flow (env : PlaybackEnv) (t : GeminiLiveService) (s0 : LiveSession)
  (a : AppState) (i1 i2 i3 i4 : string) (a1 a2 a3 a4 : Json) :
  session t = Some s0 ->
  let calls :=
    [ {| id := i1; name := "saveAadhar"; args := a1 |};
      {| id := i2; name := "savePan"; args := a2 |};
      {| id := i3; name := "verifyDetails"; args := a3 |};
      {| id := i4; name := "createDigilocker"; args := a4 |} ] in
  exists t',
    handleMessage callbacks env
      {| serverContent := None; toolCall := Some {| functionCalls := calls |} |} (t, a)
    = (Normal tt,
       (t',
        {| phase := COMPLETE;
           aadhar := Some {| fullName := property "fullName" a1;
                             number := property "number" a1;
                             dob := property "dob" a1 |};
           pan := Some {| fullName := property "fullName" a2;
                          number := property "number" a2;
                          dob := property "dob" a2 |};
           verification := MATCH;
           digilocker := {| isCreated := true; pin := property "pin" a4 |};
           isConnected := isConnected a;
           isAudioPlaying := isAudioPlaying a |})) /\
    option_map sent (session t') =
      Some (sent s0 ++
            [ ToolResponse [{| fr_id := i1; fr_name := "saveAadhar";
                               fr_response := [("status", "Aadhar Saved. Proceed to PAN.")] |}];
              ToolResponse [{| fr_id := i2; fr_name := "savePan";
                               fr_response := [("status", "PAN Saved. Proceed to Verify.")] |}];
              ToolResponse [{| fr_id := i3; fr_name := "verifyDetails";
                               fr_response := [("status", "MATCH")] |}];
              ToolResponse [{| fr_id := i4; fr_name := "createDigilocker";
                               fr_response := [("status", "Account Created.")] |}] ])%list.
Proof.
  intros Hs calls.
  destruct (for_each_handle_call callbacks calls t a Hs) as (t' & Hrun & Hses).
  exists t'. split.
  - unfold handleMessage. cbn [audioData serverContent toolCall functionCalls].
    unfold bind at 1. unfold ret at 1. exact Hrun.
  - rewrite Hses. reflexivity.
Qed.

(** ** The stepper *)

(** The four steps shown, at each phase: the steps before the phase are
    marked done, the step of the phase, if it is one of the four, current,
    and the steps after it upcoming; so that nothing is marked before the
    session starts and everything is done at the end. *)
Theorem getStepColor_steps (current : AppPhase) :
  map (getStepColor current) steps
  = (repeat done_class (Nat.min (rank current - 1) 4)
     ++ (if (1 <=? rank current)%nat && (rank current <=? 4)%nat then [current_class] else [])
     ++ repeat upcoming_class (4 - rank current))%list.
Proof. destruct current; reflexivity. Qed.

(** ** Starting and ending a session *)

Lemma startVerification_run (env : StartEnv) (c : Component) :
  requiresKeySelection c = false -> key_missing env = false ->
  startVerification env c =
    match connect (connecting env) new_service with
    | (Normal _, service) =>
        (setAppState (with_connection true AADHAR)
           (setOutputAnalyser (outputAnalyser service)
              (setInputAnalyser (inputAnalyser service)
                 (set_geminiServiceRef (Some service) (setError None c)))),
         Some service)
    | (Throw message, service) =>
        let msg := if message =? "" then "Failed to connect." else message in
        if includes "Permission" msg || includes "403" msg then
          (setError
             (Some "Permission Denied. Please ensure your API Key has access to Gemini Live.")
             (if aistudio env then setRequiresKeySelection true (setError None c)
              else setError None c),
           Some service)
        else (setError (Some msg) (setError None c), Some service)
    end.
Proof. intros Hk Hm. unfold startVerification. now rewrite Hk, Hm. Qed.

(** When [connect] throws, [startVerification] shows an error and leaves
    the application disconnected, in the phase it was in; the service object
    it constructed holds resources that are not released, and the component
    keeps no reference to it, so that [endSession] disconnects nothing. *)
Theorem startVerification_failure (env : StartEnv) (c : Component) (e : string)
  (service : GeminiLiveService) :
  requiresKeySelection c = false -> key_missing env = false ->
  connect (connecting env) new_service = (Throw e, service) ->
  exists c',
    startVerification env c = (c', Some service) /\
    error c' <> None /\
    appState c' = appState c /\
    geminiServiceRef c' = geminiServiceRef c /\
    released service = false /\
    (geminiServiceRef c = None -> snd (endSession c') = None).
Proof.
  intros Hk Hm Hc. rewrite (startVerification_run env c Hk Hm), Hc. cbv zeta.
  destruct (connect_throws_unreleased _ _ Hc) as (Hrel & _).
  destruct (includes "Permission" _ || includes "403" _);
    [destruct (aistudio env)|];
    eexists; (split; [reflexivity|]); cbn; repeat split; try discriminate;
    try exact Hrel; intros ->; reflexivity.
Qed.

(** A session that starts and is then ended: the application is connected
    in the phase AADHAR with a reference to the service, and after
    [endSession] it is disconnected in the phase IDLE without a reference, the
    service having been released: its session closed, its contexts closed,
    its nodes without a connection and the tracks of its stream stopped; the
    documents, the verification status and the account state are those from
    before the session, not reset. *)
Theorem session_round (env : StartEnv) (c : Component) (service : GeminiLiveService) :
  requiresKeySelection c = false -> key_missing env = false ->
  connect (connecting env) new_service = (Normal tt, service) ->
  exists c1 c2 left,
    startVerification env c = (c1, Some service) /\
    geminiServiceRef c1 = Some service /\ error c1 = None /\
    isConnected (appState c1) = true /\ phase (appState c1) = AADHAR /\
    endSession c1 = (c2, Some left) /\ released left = true /\
    geminiServiceRef c2 = None /\
    isConnected (appState c2) = false /\ phase (appState c2) = IDLE /\
    aadhar (appState c2) = aadhar (appState c) /\ pan (appState c2) = pan (appState c) /\
    verification (appState c2) = verification (appState c) /\
    digilocker (appState c2) = digilocker (appState c) /\
    exists stream,
      getUserMedia (connecting env) = Normal stream /\
      left =
        {| session := Some {| is_open := false; sent := [] |};
           inputAudioContext := Some {| state := closed; started := [] |};
           outputAudioContext := Some {| state := closed; started := [] |};
           inputSource := Some {| outputs := [] |};
           processor := Some {| outputs := [] |};
           nextStartTime := clock (connecting env);
           inputAnalyser := Some {| fftSize := 256; analyser_outputs := [] |};
           outputAnalyser := Some {| fftSize := 256; analyser_outputs := [] |};
           mediaStream :=
             Some {| tracks := map (fun tr => {| enabled := enabled tr; live := false |})
                                   (tracks stream) |} |}.
Proof.
  intros Hk Hm Hc. rewrite (startVerification_run env c Hk Hm), Hc.
  destruct (connect_normal _ _ Hc) as (_ & _ & _ & stream & Hg & Hsv).
  eexists _, _, _. split; [reflexivity|]. cbn [fst snd].
  do 4 (split; [reflexivity|]). split; [reflexivity|].
  split; [apply disconnect_releases|].
  do 7 (split; [reflexivity|]).
  exists stream. split; [exact Hg|].
  cbn [geminiServiceRef setAppState setOutputAnalyser setInputAnalyser set_geminiServiceRef
       setError option_map].
  rewrite Hsv, disconnect_fields. reflexivity.
Qed.

(** An error whose message contains "Permission" is shown as a problem of
    the API key, and asks for a key to be selected where that is possible,
    whichever step of [connect] threw it: a refusal of the microphone
    included. *)
Theorem permission_message (env : StartEnv) (c : Component) (e : string)
  (service : GeminiLiveService) :
  requiresKeySelection c = false -> key_missing env = false ->
  connect (connecting env) new_service = (Throw e, service) ->
  includes "Permission" e = true ->
  error (fst (startVerification env c))
    = Some "Permission Denied. Please ensure your API Key has access to Gemini Live." /\
  requiresKeySelection (fst (startVerification env c)) = aistudio env.
Proof.
  intros Hk Hm Hc Hp. rewrite (startVerification_run env c Hk Hm), Hc. cbv zeta.
  destruct (e =? "") eqn:E.
  - apply String.eqb_eq in E. subst e. discriminate Hp.
  - rewrite Hp. cbn [orb]. destruct (aistudio env); cbn; split; auto.
Qed.

(** ** The microphone switch *)

(** With a service referred to, [toggleMic] flips the mute flag and brings
    every track of the microphone in line with it; two in a row give the flag
    back.  The flag is touched neither by [endSession] nor by
    [startVerification]: it survives a restart, while the stream of the new
    session is the one [getUserMedia] delivered, as delivered. *)
Theorem toggleMic_flag (env : StartEnv) (c : Component) :
  (forall service, geminiServiceRef c = Some service ->
     exists service',
       geminiServiceRef (toggleMic c) = Some service' /\
       micMuted (toggleMic c) = negb (micMuted c) /\
       Controls.all_enabled (negb (micMuted (toggleMic c))) (mediaStream service') = true /\
       micMuted (toggleMic (toggleMic c)) = micMuted c) /\
  (geminiServiceRef c = None -> toggleMic c = c) /\
  micMuted (fst (endSession c)) = micMuted c /\
  micMuted (fst (startVerification env c)) = micMuted c /\
  (forall service stream,
     connect (connecting env) new_service = (Normal tt, service) ->
     getUserMedia (connecting env) = Normal stream ->
     mediaStream service = Some stream).
Proof.
  split; [|split; [|split; [|split]]].
  - intros service Hr. unfold toggleMic at 1 2 3. rewrite Hr. cbn.
    destruct service as [ses ictx octx src proc cursor ian oan ms].
    unfold Controls.setMicMuted, bind, get, modify, ret. cbn.
    destruct ms as [[l]|]; cbn; eexists; (split; [reflexivity|]); cbn;
      (split; [reflexivity|]); rewrite ?negb_involutive.
    + split; [apply ControlsFacts.all_enabled_set|].
      unfold toggleMic. rewrite Hr. cbn. apply negb_involutive.
    + split; [reflexivity|]. unfold toggleMic. rewrite Hr. cbn. apply negb_involutive.
  - intros Hr. unfold toggleMic. now rewrite Hr.
  - reflexivity.
  - unfold startVerification.
    destruct (requiresKeySelection c); [reflexivity|].
    destruct (key_missing env); [reflexivity|].
    destruct (connect (connecting env) new_service) as [[u|message] service]; [reflexivity|].
    cbv zeta. destruct (includes "Permission" _ || includes "403" _);
      [destruct (aistudio env)|]; reflexivity.
  - intros service stream Hc Hg.
    destruct (connect_normal _ _ Hc) as (_ & _ & _ & stream' & Hg' & ->).
    cbn. congruence.
Qed.

(** ** The playback switch *)

(** With a service referred to, [togglePlayback] flips the playing flag
    exactly when the platform fulfils the promise, and then the output
    context is suspended if the flag says paused and running if it says
    playing; when the promise is rejected, flag and context are as before. *)
Theorem togglePlayback_flag (settled : completion unit) (c : Component)
  (service : GeminiLiveService) (ctx : AudioContext) :
  geminiServiceRef c = Some service -> outputAudioContext service = Some ctx ->
  exists service',
    geminiServiceRef (togglePlayback settled c) = Some service' /\
    match settled with
    | Normal _ =>
        isAudioPlaying (appState (togglePlayback settled c))
          = negb (isAudioPlaying (appState c)) /\
        option_map state (outputAudioContext service')
          = Some (if isAudioPlaying (appState (togglePlayback settled c))
                  then running else suspended)
    | Throw _ =>
        isAudioPlaying (appState (togglePlayback settled c)) = isAudioPlaying (appState c) /\
        service' = service
    end.
Proof.
  intros Hr Hctx. unfold togglePlayback. rewrite Hr.
  destruct service as [ses ictx octx src proc cursor ian oan ms]. cbn in Hctx. subst octx.
  unfold Controls.setOutputPaused, bind, get, modify, ret, await. cbn.
  destruct (isAudioPlaying (appState c)) eqn:E, settled as [[]|e]; cbn;
    eexists; (split; [reflexivity|]); rewrite ?E; split; reflexivity.
Qed.

(** ** The theorems above at sample runs *)

Lemma declared_tools_dispatched_witness :
  responseResult counting_callbacks {| id := "2"; name := "savePan"; args := [] |} 0%nat
  = (Normal error_payload, 1%nat).
Proof.
  exact (proj1 (proj2 (declared_tools_dispatched counting_callbacks
                         {| id := "2"; name := "savePan"; args := [] |} 0%nat))
               eq_refl).
Defined.

Lemma verification_always_matches_witness :
  fst (responseResult callbacks {| id := "3"; name := "verifyDetails"; args := [] |}
         initial_state) = Normal [("status", "MATCH")].
Proof.
  exact (proj1 (proj1 (verification_always_matches
                         {| id := "3"; name := "verifyDetails"; args := [] |}
                         initial_state) eq_refl)).
Defined.

Lemma app_handlers_set_phase_witness :
  exists j a',
    responseResult callbacks {| id := "4"; name := "createDigilocker"; args := [] |}
                   initial_state = (Normal j, a') /\ phase a' = COMPLETE.
Proof.
  destruct (app_handlers_set_phase {| id := "4"; name := "createDigilocker"; args := [] |}
              initial_state) as (j & a' & Hrun & _ & _ & _ & _ & Hp & _).
  exists j, a'. split; [exact Hrun|exact (Hp eq_refl)].
Defined.

Lemma scripted_flow_witness :
  phase (snd (snd (handleMessage callbacks at_five
    {| serverContent := None;
       toolCall := Some {| functionCalls :=
         [ {| id := "1"; name := "saveAadhar"; args := [] |};
           {| id := "2"; name := "savePan"; args := [] |};
           {| id := "3"; name := "verifyDetails"; args := [] |};
           {| id := "4"; name := "createDigilocker"; args := [] |} ] |} |}
    (connected_service, initial_state)))) = COMPLETE.
Proof.
  destruct (@scripted_flow at_five connected_service {| is_open := true; sent := [] |}
              initial_state "1" "2" "3" "4" [] [] [] [] eq_refl) as (t' & Hrun & _).
  rewrite Hrun. reflexivity.
Defined.

Lemma startVerification_failure_witness :
  exists c', startVerification rejecting initial_component
             = (c', Some (snd (connect handshake_rejected new_service))) /\
             error c' <> None.
Proof.
  destruct (@startVerification_failure rejecting initial_component "handshake rejected"
              (snd (connect handshake_rejected new_service)) eq_refl eq_refl eq_refl)
    as (c' & Hrun & Herr & _).
  exists c'. split; assumption.
Defined.

Lemma permission_message_witness :
  error (fst (startVerification refusing initial_component))
    = Some "Permission Denied. Please ensure your API Key has access to Gemini Live.".
Proof.
  exact (proj1 (@permission_message refusing initial_component "Permission denied"
                  (snd (connect (connecting refusing) new_service))
                  eq_refl eq_refl eq_refl eq_refl)).
Defined.

Lemma session_round_witness :
  exists c1 c2 left,
    startVerification granting initial_component = (c1, Some connected_service) /\
    endSession c1 = (c2, Some left) /\ released left = true.
Proof.
  assert (Hc : connect (connecting granting) new_service = (Normal tt, connected_service))
    by (vm_compute; reflexivity).
  destruct (@session_round granting initial_component connected_service
              eq_refl eq_refl Hc)
    as (c1 & c2 & left & H1 & _ & _ & _ & _ & H2 & H3 & _).
  exists c1, c2, left. split; [exact H1|split; [exact H2|exact H3]].
Defined.

Lemma toggleMic_flag_witness : toggleMic initial_component = initial_component.
Proof.
  exact (proj1 (proj2 (toggleMic_flag granting initial_component)) eq_refl).
Defined.

Lemma togglePlayback_flag_witness :
  exists service',
    geminiServiceRef
      (togglePlayback (Normal tt)
         (fst (startVerification granting initial_component))) = Some service' /\
    option_map state (outputAudioContext service') = Some suspended.
Proof.
  assert (Hc : geminiServiceRef (fst (startVerification granting initial_component))
               = Some connected_service) by (vm_compute; reflexivity).
  destruct (@togglePlayback_flag (Normal tt)
              (fst (startVerification granting initial_component))
              connected_service {| state := running; started := [] |} Hc eq_refl)
    as (service' & Hr & _ & Hs).
  exists service'. split; [exact Hr|exact Hs].
Defined.

End AppFacts.
